(** * Exam seating optimizer: a model of [cpp_solver/solver.cpp]

    The development embeds [FastSeatingOptimizer] (position precompute,
    adjacency, CP-SAT model construction and solution extraction) and states
    the properties of its specification against that embedding.

    Conventions.
    - A C++ [int] is a [Z]; where the source narrows a [size_t] to [int]
      the wrap-around is written with [to_int].
    - [std::to_string] is stdpp's [pretty] (decimal digits, a leading [-]
      for negative numbers).
    - [std::unordered_map<std::string, _>] is a [gmap string _]; the order
      in which a range-for visits its keys is left to the standard library
      by C++, so it is a parameter ([umap_order]) of the model.
    - [CpModelBuilder] is a record threaded through the calls that mutate
      it; the CP-SAT solver itself is a parameter of [solve]. *)

From stdpp Require Import gmap strings list fin_maps pretty sorting.
From Stdlib Require Import ZArith Lia Ascii.

Local Open Scope Z_scope.

(** ** Data model (the three structs of the source) *)

Module Student.
Record t := mk { id : Z; exam : string }.
End Student.

Module Room.
Record t := mk { id : string; rows : Z; cols : Z; skip_rows : bool; skip_cols : bool }.
End Room.

Module Assignment.
Record t := mk { student_id : Z; room_id : string; row : Z; col : Z }.
End Assignment.

#[global] Instance Room_inhabited : Inhabited Room.t :=
  populate (Room.mk "" 0 0 false false).

#[global] Instance Assignment_eq_dec : EqDecision Assignment.t.
Proof. solve_decision. Defined.

(** ** Machine integers *)

Definition INT_MAX : Z := 2147483647.

(** Narrowing conversion of an integer value to a 32-bit [int]. *)
Definition to_int (z : Z) : Z := (z + 2147483648) `mod` 4294967296 - 2147483648.

(** ** Position precompute *)

(** The values taken by [v] in [for (int v = 0; v < n; v++)]. *)
Definition int_range (n : Z) : list Z := seqZ 0 n.

(** The body of the outer loop of [precompute_positions] for one room.
    [continue] leaves the iteration without pushing anything. *)
Definition positions_of (room : Room.t) : list (Z * Z) :=
  r ← int_range (Room.rows room);
  if Room.skip_rows room && negb (Z.rem r 2 =? 0) then []
  else
    c ← int_range (Room.cols room);
    if Room.skip_cols room && negb (Z.rem c 2 =? 0) then []
    else [(r, c)].

(** The line printed for one room. *)
Definition room_line (room : Room.t) (positions : list (Z * Z)) : string :=
  "Room " +:+ Room.id room +:+ ": " +:+ pretty (length positions) +:+ " positions".

(** [precompute_positions]: the vector of position vectors, one per room,
    together with the lines written to [std::cout]. *)
Definition precompute_positions (rooms : list Room.t) : list (list (Z * Z)) * list string :=
  foldl (λ '(room_positions, out) room,
           let positions := positions_of room in
           (room_positions ++ [positions], out ++ [room_line room positions]))
        ([], []) rooms.

(** [is_adjacent]: both coordinates are non-negative ints, so the two
    differences do not overflow, and their sum stays below [2^32 + 1]: the
    comparison with 1 is the one on mathematical integers. *)
Definition is_adjacent (pos1 pos2 : Z * Z) : bool :=
  Z.abs (pos1.1 - pos2.1) + Z.abs (pos1.2 - pos2.2) =? 1.

(** ** Variable keys *)

(** [std::to_string(student.id) + "_" + std::to_string(ki) + "_" + ...] *)
Definition var_key (sid : Z) (ki : nat) (pos : Z * Z) : string :=
  pretty sid +:+ "_" +:+ pretty ki +:+ "_" +:+ pretty pos.1 +:+ "_" +:+ pretty pos.2.

(** ** The CP-SAT interface used by the source *)

(** A [BoolVar] is the index of the variable in the model. *)
Definition BoolVar := nat.

Record LinearExpr := { terms : list BoolVar; offset : Z }.

(** [LinearExpr::Sum(vars)], a variable used as an expression, a constant. *)
Definition Sum (vars : list BoolVar) : LinearExpr := {| terms := vars; offset := 0 |}.
Definition Var (v : BoolVar) : LinearExpr := Sum [v].
Definition Const (k : Z) : LinearExpr := {| terms := []; offset := k |}.

Inductive Constraint :=
| Equality (lhs rhs : LinearExpr)
| LessOrEqual (lhs rhs : LinearExpr).

#[global] Instance LinearExpr_eq_dec : EqDecision LinearExpr.
Proof. solve_decision. Defined.
#[global] Instance Constraint_eq_dec : EqDecision Constraint.
Proof. solve_decision. Defined.

(** The model handed to the solver by [cp_model.Build()]. *)
Record CpModel := {
  num_vars : nat;
  constraints : list Constraint;
  objective : LinearExpr
}.

Module CpModelBuilder.
(** [emitted] holds the constraints added so far, most recent first. *)
Record t := mk { vars : nat; emitted : list Constraint; minimized : LinearExpr }.
Definition empty : t := mk 0 [] (Const 0).
Definition NewBoolVar (m : t) : BoolVar * t :=
  (vars m, mk (S (vars m)) (emitted m) (minimized m)).
Definition AddEquality (lhs rhs : LinearExpr) (m : t) : t :=
  mk (vars m) (Equality lhs rhs :: emitted m) (minimized m).
Definition AddLessOrEqual (lhs rhs : LinearExpr) (m : t) : t :=
  mk (vars m) (LessOrEqual lhs rhs :: emitted m) (minimized m).
Definition Minimize (e : LinearExpr) (m : t) : t :=
  mk (vars m) (emitted m) e.
Definition Build (m : t) : CpModel :=
  {| num_vars := vars m; constraints := reverse (emitted m); objective := minimized m |}.
End CpModelBuilder.

Inductive CpSolverStatus := UNKNOWN | MODEL_INVALID | FEASIBLE | INFEASIBLE | OPTIMAL.

(** [static_cast<int>(response.status())] *)
Definition status_code (s : CpSolverStatus) : Z :=
  match s with
  | UNKNOWN => 0 | MODEL_INVALID => 1 | FEASIBLE => 2 | INFEASIBLE => 3 | OPTIMAL => 4
  end.

Record CpSolverResponse := { status : CpSolverStatus; solution : BoolVar → bool }.

Definition SolutionBooleanValue (r : CpSolverResponse) (v : BoolVar) : bool := solution r v.

Record SatParameters := {
  max_time_in_seconds : Z;
  num_search_workers : Z;
  portfolio_search : bool;
  cp_model_presolve : bool
}.

(** Meaning of a model under a truth assignment of its variables. *)
Definition eval (val : BoolVar → bool) (e : LinearExpr) : Z :=
  foldr (λ v acc, Z.b2z (val v) + acc) (offset e) (terms e).

Definition holds (val : BoolVar → bool) (c : Constraint) : bool :=
  match c with
  | Equality l r => eval val l =? eval val r
  | LessOrEqual l r => eval val l <=? eval val r
  end.

Definition satisfies (val : BoolVar → bool) (m : CpModel) : bool :=
  forallb (holds val) (constraints m).

(** A response the solver may give for [m]: with [OPTIMAL] or [FEASIBLE]
    its solution satisfies every constraint, and with [OPTIMAL] no
    satisfying assignment has a smaller objective. *)
Definition sound_response (m : CpModel) (r : CpSolverResponse) : Prop :=
  (status r = OPTIMAL ∨ status r = FEASIBLE → satisfies (solution r) m = true) ∧
  (status r = OPTIMAL →
     ∀ val, satisfies val m = true → eval (solution r) (objective m) ≤ eval val (objective m)).

(** ** Model construction in [solve] *)

(** The values taken by [ki] in [for (size_t ki = 0; ki < rooms.size(); ki++)]. *)
Definition room_indices (rooms : list Room.t) : list nat := seq 0 (length rooms).

(** [total_capacity += positions.size()] over the rooms; the sum is stored
    back into an [int]. *)
Definition total_capacity (room_positions : list (list (Z * Z))) : Z :=
  foldl (λ acc positions, to_int (acc + Z.of_nat (length positions))) 0 room_positions.

(** [exam_to_students[student.exam].push_back(student.id)] for every student;
    [operator[]] starts a missing key with the empty vector. *)
Definition exam_to_students (students : list Student.t) : gmap string (list Z) :=
  foldl (λ m student,
           <[Student.exam student := m !!! Student.exam student ++ [Student.id student]]> m)
        ∅ students.

(** The pairs visited by [for (const auto& exam_group : exam_to_students)].
    [umap_order] maps the sequence of keys inserted into the hash map to the
    sequence in which iteration yields its (distinct) keys. *)
Definition exam_groups (umap_order : list string → list string)
    (students : list Student.t) : list (string * list Z) :=
  let m := exam_to_students students in
  (λ e, (e, m !!! e)) <$> umap_order (Student.exam <$> students).

(** Two orders a hash map may have: keys in order of first insertion, and
    the most recently inserted key first. *)
Definition last_inserted_first (keys : list string) : list string :=
  remove_dups (reverse keys).
Definition first_inserted_first (keys : list string) : list string :=
  reverse (last_inserted_first keys).

(** Room usage variables: [y.push_back(cp_model.NewBoolVar())] per room. *)
Definition create_room_vars (rooms : list Room.t) (cp_model : CpModelBuilder.t)
    : list BoolVar * CpModelBuilder.t :=
  foldl (λ '(y, cp_model) _,
           let '(v, cp_model) := CpModelBuilder.NewBoolVar cp_model in (y ++ [v], cp_model))
        ([], cp_model) (room_indices rooms).

(** The restriction test of the variable loop: the room is skipped when the
    exam has a restriction list that does not contain the room's id. *)
Definition room_allowed (restrictions : gmap string (list string))
    (exam room_id : string) : bool :=
  match restrictions !! exam with
  | Some allowed_rooms => bool_decide (room_id ∈ allowed_rooms)
  | None => true
  end.

(** State of the variable-creation loop. *)
Record VarState := {
  vs_model : CpModelBuilder.t;
  vs_x : gmap string BoolVar;
  vs_count : Z
}.

(** [x[var_key] = cp_model.NewBoolVar(); variable_count++;] — assigning to
    a key that is already present replaces its variable; the counter is an
    [int]. *)
Definition new_x (var_key : string) (st : VarState) : VarState :=
  let '(v, cp_model) := CpModelBuilder.NewBoolVar (vs_model st) in
  {| vs_model := cp_model; vs_x := <[var_key := v]> (vs_x st);
     vs_count := to_int (vs_count st + 1) |}.

Definition create_student_vars (students : list Student.t) (rooms : list Room.t)
    (restrictions : gmap string (list string)) (room_positions : list (list (Z * Z)))
    (st : VarState) : VarState :=
  foldl (λ st student,
    foldl (λ st ki,
      if room_allowed restrictions (Student.exam student) (Room.id (rooms !!! ki))
      then foldl (λ st pos, new_x (var_key (Student.id student) ki pos) st)
                 st (room_positions !!! ki)
      else st)
      st (room_indices rooms))
    st students.

(** Constraint 1. [student_vars] collects the student's existing variables;
    the equality is added only when there is one. *)
Definition collect_student_vars (x : gmap string BoolVar) (rooms : list Room.t)
    (room_positions : list (list (Z * Z))) (student : Student.t) : list BoolVar :=
  foldl (λ student_vars ki,
    foldl (λ student_vars pos,
      match x !! var_key (Student.id student) ki pos with
      | Some v => student_vars ++ [v]
      | None => student_vars
      end)
      student_vars (room_positions !!! ki))
    [] (room_indices rooms).

Definition add_assignment_constraints (x : gmap string BoolVar)
    (students : list Student.t) (rooms : list Room.t)
    (room_positions : list (list (Z * Z))) (cp_model : CpModelBuilder.t) : CpModelBuilder.t :=
  foldl (λ cp_model student,
    let student_vars := collect_student_vars x rooms room_positions student in
    if bool_decide (student_vars = []) then cp_model
    else CpModelBuilder.AddEquality (Sum student_vars) (Const 1) cp_model)
    cp_model students.

(** Constraint 2: per seat, one linking constraint per existing variable as
    it is met, then the at-most-one constraint over the seat's variables. *)
Definition add_seat_constraints (x : gmap string BoolVar) (y : list BoolVar)
    (students : list Student.t) (rooms : list Room.t)
    (room_positions : list (list (Z * Z))) (cp_model : CpModelBuilder.t) : CpModelBuilder.t :=
  foldl (λ cp_model ki,
    foldl (λ cp_model pos,
      let '(seat_vars, cp_model) :=
        foldl (λ '(seat_vars, cp_model) student,
          match x !! var_key (Student.id student) ki pos with
          | Some v =>
              (seat_vars ++ [v],
               CpModelBuilder.AddLessOrEqual (Var v) (Var (y !!! ki)) cp_model)
          | None => (seat_vars, cp_model)
          end)
          ([], cp_model) students in
      if bool_decide (seat_vars = []) then cp_model
      else CpModelBuilder.AddLessOrEqual (Sum seat_vars) (Const 1) cp_model)
      cp_model (room_positions !!! ki))
    cp_model (room_indices rooms).

(** Constraint 3. *)
Definition MAX_SEPARATION_CONSTRAINTS : Z := 50000.

Record SepState := { sep_model : CpModelBuilder.t; separation_count : Z }.

(** [for (i = 0; i < l.size() && separation_count < MAX; i++) body(l[i])] *)
Fixpoint for_capped {A} (body : A → SepState → SepState) (l : list A)
    (st : SepState) : SepState :=
  match l with
  | [] => st
  | a :: l' =>
      if separation_count st <? MAX_SEPARATION_CONSTRAINTS
      then for_capped body l' (body a st)
      else st
  end.

(** [for (i = 0; i < l.size() && separation_count < MAX; i++)
      for (j = i + 1; j < l.size() && separation_count < MAX; j++) body(l[i], l[j])] *)
Fixpoint for_pairs_capped {A} (body : A → A → SepState → SepState) (l : list A)
    (st : SepState) : SepState :=
  match l with
  | [] => st
  | a :: rest =>
      if separation_count st <? MAX_SEPARATION_CONSTRAINTS
      then for_pairs_capped body rest (for_capped (body a) rest st)
      else st
  end.

(** The innermost statement: the constraint is added when both variables
    exist. *)
Definition add_pair_constraint (x : gmap string BoolVar) (ki : nat)
    (pos_i pos_j : Z * Z) (stud_i stud_j : Z) (st : SepState) : SepState :=
  match x !! var_key stud_i ki pos_i, x !! var_key stud_j ki pos_j with
  | Some v1, Some v2 =>
      {| sep_model :=
           CpModelBuilder.AddLessOrEqual (Sum [v1; v2]) (Const 1) (sep_model st);
         separation_count := separation_count st + 1 |}
  | _, _ => st
  end.

Definition add_separation_constraints (x : gmap string BoolVar)
    (groups : list (string * list Z)) (rooms : list Room.t)
    (room_positions : list (list (Z * Z))) (st : SepState) : SepState :=
  foldl (λ st exam_group,
    let studs := exam_group.2 in
    if (length studs <? 2)%nat then st
    else
      foldl (λ st ki,
        for_pairs_capped (λ pos_i pos_j st,
          if negb (is_adjacent pos_i pos_j) then st
          else for_pairs_capped (add_pair_constraint x ki pos_i pos_j) studs st)
          (room_positions !!! ki) st)
        st (room_indices rooms))
    st groups.

(** Everything [solve] builds between the capacity test and the solver
    call. (The map [exam_of], which the source fills and never reads, is
    left out.) *)
Record Built := {
  b_model : CpModelBuilder.t;
  b_y : list BoolVar;
  b_x : gmap string BoolVar;
  b_variable_count : Z;
  b_separation_count : Z
}.

Definition build_model (umap_order : list string → list string)
    (students : list Student.t) (rooms : list Room.t)
    (restrictions : gmap string (list string))
    (room_positions : list (list (Z * Z))) : Built :=
  let groups := exam_groups umap_order students in
  let '(y, cp_model) := create_room_vars rooms CpModelBuilder.empty in
  let vs := create_student_vars students rooms restrictions room_positions
              {| vs_model := cp_model; vs_x := ∅; vs_count := 0 |} in
  let x := vs_x vs in
  let cp_model := add_assignment_constraints x students rooms room_positions (vs_model vs) in
  let cp_model := add_seat_constraints x y students rooms room_positions cp_model in
  let sep := add_separation_constraints x groups rooms room_positions
               {| sep_model := cp_model; separation_count := 0 |} in
  {| b_model := CpModelBuilder.Minimize (Sum y) (sep_model sep);
     b_y := y; b_x := x;
     b_variable_count := vs_count vs;
     b_separation_count := separation_count sep |}.

(** ** Solution extraction *)

(** The innermost loop: the first position of the room whose variable
    exists and is true ends the loop ([break]). *)
Fixpoint first_true_position (x : gmap string BoolVar) (response : CpSolverResponse)
    (sid : Z) (ki : nat) (positions : list (Z * Z)) : option (Z * Z) :=
  match positions with
  | [] => None
  | pos :: rest =>
      match x !! var_key sid ki pos with
      | Some v =>
          if SolutionBooleanValue response v then Some pos
          else first_true_position x response sid ki rest
      | None => first_true_position x response sid ki rest
      end
  end.

Definition extract_assignments (x : gmap string BoolVar) (response : CpSolverResponse)
    (students : list Student.t) (rooms : list Room.t)
    (room_positions : list (list (Z * Z))) : list Assignment.t :=
  foldl (λ assignments student,
    foldl (λ assignments ki,
      match first_true_position x response (Student.id student) ki (room_positions !!! ki) with
      | Some pos =>
          assignments ++
            [Assignment.mk (Student.id student) (Room.id (rooms !!! ki)) pos.1 pos.2]
      | None => assignments
      end)
      assignments (room_indices rooms))
    [] students.

(** ** [solve]

    Besides its four arguments a run depends on the solver, on the
    iteration order of the exam hash map, and on [solve_time], the number of
    milliseconds the clock shows to have elapsed when the solver returns. *)

(** What a call of [solve] does: the vector it returns, the lines it writes
    to [std::cout], and the parameters and model of its solver call, if it
    makes one. *)
Record Outcome := {
  assignments : list Assignment.t;
  cout : list string;
  solver_call : option (SatParameters * CpModel)
}.

Definition solve (solver : SatParameters → CpModel → CpSolverResponse)
    (umap_order : list string → list string) (solve_time : Z)
    (students : list Student.t) (rooms : list Room.t)
    (restrictions : gmap string (list string)) (timeout_seconds : Z) : Outcome :=
  let out := ["Starting C++ solver with " +:+ pretty (length students) +:+
              " students and " +:+ pretty (length rooms) +:+ " rooms"] in
  let '(room_positions, room_lines) := precompute_positions rooms in
  let out := out ++ room_lines in
  let capacity := total_capacity room_positions in
  let out := out ++ ["Total capacity: " +:+ pretty capacity +:+
                     ", Students: " +:+ pretty (length students)] in
  if capacity <? to_int (Z.of_nat (length students)) then
    {| assignments := [];
       cout := out ++ ["ERROR: Not enough capacity!"];
       solver_call := None |}
  else
    let b := build_model umap_order students rooms restrictions room_positions in
    let out := out ++ ["Created " +:+ pretty (b_variable_count b) +:+ " variables"] in
    let out := out ++ ["Added " +:+ pretty (b_separation_count b) +:+
                       " separation constraints"] in
    let parameters := {| max_time_in_seconds := timeout_seconds;
                         num_search_workers := 4;
                         portfolio_search := true;
                         cp_model_presolve := true |} in
    let out := out ++ ["Starting C++ solver..."] in
    let model := CpModelBuilder.Build (b_model b) in
    let response := solver parameters model in
    let out := out ++ ["C++ solver completed in " +:+ pretty solve_time +:+ "ms"] in
    let out := out ++ ["Status: " +:+ pretty (status_code (status response))] in
    match status response with
    | OPTIMAL | FEASIBLE =>
        let assignments := extract_assignments (b_x b) response students rooms room_positions in
        {| assignments := assignments;
           cout := out ++ ["C++ solver assigned " +:+ pretty (length assignments) +:+ " students"];
           solver_call := Some (parameters, model) |}
    | _ =>
        {| assignments := []; cout := out; solver_call := Some (parameters, model) |}
    end.

(** ** Auxiliary notions used in the statements *)

(** Occurrence of a character in a string. *)
Fixpoint occurs (c : ascii) (s : string) : bool :=
  match s with
  | EmptyString => false
  | String a s' => bool_decide (a = c) || occurs c s'
  end.

(** Row-major order on positions. *)
Definition row_major (p q : Z * Z) : Prop := p.1 < q.1 ∨ (p.1 = q.1 ∧ p.2 < q.2).

(** A usable position of a room, in the words of the specification. *)
Definition usable (room : Room.t) (p : Z * Z) : Prop :=
  (0 ≤ p.1 < Room.rows room ∧ 0 ≤ p.2 < Room.cols room) ∧
  (Room.skip_rows room = false ∨ p.1 `mod` 2 = 0) ∧
  (Room.skip_cols room = false ∨ p.2 `mod` 2 = 0).

(** ** The emitted model, as the specification enumerates it *)

(** Every element paired with every later one: the pairs [(l[i], l[j])],
    [i < j], with [i] ascending and [j] ascending for each [i]. *)
Fixpoint ordered_pairs {A} (l : list A) : list (A * A) :=
  match l with
  | [] => []
  | a :: rest => (pair a <$> rest) ++ ordered_pairs rest
  end.

(** The same pairs, by index. *)
Definition index_pairs (n : nat) : list (nat * nat) :=
  i ← seq 0 n; pair i <$> seq (S i) (n - S i).

(** Keys of the decision variables, in creation order: students in input
    order, rooms of the student's exam in ascending index order, positions
    in precomputed order. *)
Definition created_keys (students : list Student.t) (rooms : list Room.t)
    (restrictions : gmap string (list string)) (room_positions : list (list (Z * Z)))
    : list string :=
  student ← students;
  ki ← room_indices rooms;
  if room_allowed restrictions (Student.exam student) (Room.id (rooms !!! ki))
  then var_key (Student.id student) ki <$> room_positions !!! ki
  else [].

(** Variables of a student, room by room and position by position. *)
Definition student_vars (x : gmap string BoolVar) (rooms : list Room.t)
    (room_positions : list (list (Z * Z))) (sid : Z) : list BoolVar :=
  ki ← room_indices rooms;
  pos ← room_positions !!! ki;
  option_list (x !! var_key sid ki pos).

(** Variables of a seat, student by student. *)
Definition seat_vars (x : gmap string BoolVar) (students : list Student.t)
    (ki : nat) (pos : Z * Z) : list BoolVar :=
  student ← students; option_list (x !! var_key (Student.id student) ki pos).

(** Assignment constraints: one per student that has a variable. *)
Definition assignment_constraints (x : gmap string BoolVar) (students : list Student.t)
    (rooms : list Room.t) (room_positions : list (list (Z * Z))) : list Constraint :=
  student ← students;
  let vars := student_vars x rooms room_positions (Student.id student) in
  if bool_decide (vars = []) then [] else [Equality (Sum vars) (Const 1)].

(** Linkage and capacity constraints, seat by seat. *)
Definition seat_constraints (x : gmap string BoolVar) (y : list BoolVar)
    (students : list Student.t) (rooms : list Room.t)
    (room_positions : list (list (Z * Z))) : list Constraint :=
  ki ← room_indices rooms;
  pos ← room_positions !!! ki;
  let vars := seat_vars x students ki pos in
  ((λ v, LessOrEqual (Var v) (Var (y !!! ki))) <$> vars) ++
  (if bool_decide (vars = []) then [] else [LessOrEqual (Sum vars) (Const 1)]).

(** Separation constraints before the cap: exam groups in the order the
    hash map yields them, rooms ascending, adjacent position pairs
    ascending, student pairs ascending. *)
Definition separation_candidates (x : gmap string BoolVar)
    (groups : list (string * list Z)) (rooms : list Room.t)
    (room_positions : list (list (Z * Z))) : list Constraint :=
  exam_group ← groups;
  if (length exam_group.2 <? 2)%nat then []
  else
    ki ← room_indices rooms;
    pp ← ordered_pairs (room_positions !!! ki);
    if is_adjacent pp.1 pp.2 then
      ss ← ordered_pairs exam_group.2;
      match x !! var_key ss.1 ki pp.1, x !! var_key ss.2 ki pp.2 with
      | Some v1, Some v2 => [LessOrEqual (Sum [v1; v2]) (Const 1)]
      | _, _ => []
      end
    else [].

(** What the extraction loop emits for one student and one room. *)
Definition extracted_for (x : gmap string BoolVar) (response : CpSolverResponse)
    (rooms : list Room.t) (room_positions : list (list (Z * Z)))
    (student : Student.t) (ki : nat) : option Assignment.t :=
  (λ pos, Assignment.mk (Student.id student) (Room.id (rooms !!! ki)) pos.1 pos.2) <$>
  first_true_position x response (Student.id student) ki (room_positions !!! ki).

(** Effect of a run of [AddEquality]/[AddLessOrEqual] calls on the builder. *)
Definition emit_all (cs : list Constraint) (m : CpModelBuilder.t) : CpModelBuilder.t :=
  CpModelBuilder.mk (CpModelBuilder.vars m) (reverse cs ++ CpModelBuilder.emitted m)
    (CpModelBuilder.minimized m).

(** Effect on the separation state of offering the candidates [cs] under
    the cap. *)
Definition push_capped (cs : list Constraint) (st : SepState) : SepState :=
  let kept := take (Z.to_nat (MAX_SEPARATION_CONSTRAINTS - separation_count st)) cs in
  {| sep_model := emit_all kept (sep_model st);
     separation_count := separation_count st + Z.of_nat (length kept) |}.

(** Ids of the students taking an exam, in input order. *)
Definition exam_students (students : list Student.t) (e : string) : list Z :=
  Student.id <$> filter (λ student, Student.exam student = e) students.

(** Total number of usable seats of the rooms. *)
Definition usable_capacity (rooms : list Room.t) : nat :=
  sum_list (length <$> (positions_of <$> rooms)).

(** Number of usable seats of the rooms an allow-list names. *)
Definition restricted_capacity (rooms : list Room.t) (allowed : list string) : nat :=
  usable_capacity (filter (λ room, Room.id room ∈ allowed) rooms).

(** Some restricted exam has more students than seats in its listed rooms. *)
Definition restricted_shortage (students : list Student.t) (rooms : list Room.t)
    (restrictions : gmap string (list string)) : Prop :=
  ∃ e allowed, restrictions !! e = Some allowed ∧
    (restricted_capacity rooms allowed < length (exam_students students e))%nat.

(** The parameters [solve] passes to the solver. *)
Definition solver_parameters (timeout_seconds : Z) : SatParameters :=
  {| max_time_in_seconds := timeout_seconds; num_search_workers := 4;
     portfolio_search := true; cp_model_presolve := true |}.

(** The model and the variable map [solve] builds for an input that passes
    the capacity test. *)
Definition built (umap_order : list string → list string)
    (students : list Student.t) (rooms : list Room.t)
    (restrictions : gmap string (list string)) : Built :=
  build_model umap_order students rooms restrictions (precompute_positions rooms).1.

Definition model_of (umap_order : list string → list string)
    (students : list Student.t) (rooms : list Room.t)
    (restrictions : gmap string (list string)) : CpModel :=
  CpModelBuilder.Build (b_model (built umap_order students rooms restrictions)).

(** The capacity test of [solve]. *)
Definition rejected (students : list Student.t) (rooms : list Room.t) : bool :=
  total_capacity (precompute_positions rooms).1 <? to_int (Z.of_nat (length students)).

(** The lines [solve] prints before the capacity test. *)
Definition header_lines (students : list Student.t) (rooms : list Room.t) : list string :=
  ["Starting C++ solver with " +:+ pretty (length students) +:+
   " students and " +:+ pretty (length rooms) +:+ " rooms"] ++
  (precompute_positions rooms).2 ++
  ["Total capacity: " +:+ pretty (total_capacity (precompute_positions rooms).1) +:+
   ", Students: " +:+ pretty (length students)].

(** Some variable of the student in room [ki] exists and is true. *)
Definition has_true_var (x : gmap string BoolVar) (response : CpSolverResponse)
    (room_positions : list (list (Z * Z))) (sid : Z) (ki : nat) : bool :=
  existsb (λ pos, match x !! var_key sid ki pos with
                  | Some v => solution response v
                  | None => false
                  end)
          (room_positions !!! ki).

(** The student's decision variables that the response makes true. *)
Definition true_vars_of (x : gmap string BoolVar) (response : CpSolverResponse)
    (rooms : list Room.t) (room_positions : list (list (Z * Z))) (sid : Z) : list BoolVar :=
  filter (λ v, solution response v = true) (student_vars x rooms room_positions sid).

(** The separation constraints offered to the cap for an input. *)
Definition offered (umap_order : list string → list string)
    (students : list Student.t) (rooms : list Room.t)
    (restrictions : gmap string (list string)) : list Constraint :=
  separation_candidates (b_x (built umap_order students rooms restrictions))
    (exam_groups umap_order students) rooms (precompute_positions rooms).1.

(** What the rest of [solve] reads of a room: its id and its positions. *)
Definition room_view (room : Room.t) : string * list (Z * Z) :=
  (Room.id room, positions_of room).

(** The room with the same id and flags and no seat at all. *)
Definition without_seats (room : Room.t) : Room.t :=
  Room.mk (Room.id room) 0 0 (Room.skip_rows room) (Room.skip_cols room).

(** What is read off a run on a concrete input: the lines printed, and
    whether the response [r] satisfies every constraint of the model the
    solver was called with. *)
Definition checked_run (r : CpSolverResponse) (o : Outcome) : list string * bool :=
  (cout o,
   match solver_call o with
   | Some (_, m) => foldl (λ ok c, ok && holds (solution r) c) true (constraints m)
   | None => false
   end).

(** ** Concrete inputs and solver responses *)

(** A response whose true variables are those listed. *)
Definition response_with (st : CpSolverStatus) (true_vars : list BoolVar) : CpSolverResponse :=
  {| status := st; solution := λ v, bool_decide (v ∈ true_vars) |}.

(** A solver that gives up. *)
Definition unknown_solver (_ : SatParameters) (_ : CpModel) : CpSolverResponse :=
  response_with UNKNOWN [].

(** Five students of one exam, three seats (scenario D of the
    specification). *)
Definition students_D : list Student.t :=
  [Student.mk 0 "x"; Student.mk 1 "x"; Student.mk 2 "x"; Student.mk 3 "x"; Student.mk 4 "x"].
Definition rooms_D : list Room.t := [Room.mk "R1" 1 3 false false].

(** An exam restricted to a room that is not among the rooms. *)
Definition students_R : list Student.t := [Student.mk 0 "art"; Student.mk 1 "math"].
Definition rooms_R : list Room.t := [Room.mk "R1" 1 2 false false].
Definition restrictions_R : gmap string (list string) := {["art" := ["R9"]]}.
(** Room R1 used, student 1 at (0,0). *)
Definition response_R : CpSolverResponse := response_with OPTIMAL [0; 1]%nat.

(** One student, two single-seat rooms; a response that sets every variable. *)
Definition students_T : list Student.t := [Student.mk 0 "a"].
Definition rooms_T : list Room.t :=
  [Room.mk "R1" 1 1 false false; Room.mk "R2" 1 1 false false].
Definition response_T : CpSolverResponse := {| status := OPTIMAL; solution := λ _, true |}.

(** An exam restricted to the empty list of rooms. *)
Definition students_E : list Student.t := [Student.mk 7 "art"; Student.mk 8 "math"].
Definition rooms_E : list Room.t := [Room.mk "R1" 1 2 false false].
Definition restrictions_E : gmap string (list string) := {["art" := []]}.
(** Room R1 used, student 8 at (0,0). *)
Definition response_E : CpSolverResponse := response_with OPTIMAL [0; 1]%nat.

(** Two students of one exam, one row of three seats (scenario A of the
    specification); room R1 used, student 0 at (0,1), student 1 at (0,0). *)
Definition students_A : list Student.t := [Student.mk 0 "math"; Student.mk 1 "math"].
Definition rooms_A : list Room.t := [Room.mk "R1" 1 3 false false].
Definition response_A : CpSolverResponse := response_with OPTIMAL [0; 2; 4]%nat.

(** A room with a negative number of rows next to a regular one. *)
Definition students_Z : list Student.t := [Student.mk 0 "a"].
Definition rooms_Z : list Room.t :=
  [Room.mk "R0" (-3) 5 false true; Room.mk "R1" 1 2 false false].

(** Two exams of two students each, one row of four seats. *)
Definition students_O : list Student.t :=
  [Student.mk 0 "a"; Student.mk 1 "a"; Student.mk 2 "b"; Student.mk 3 "b"].
Definition rooms_O : list Room.t := [Room.mk "R1" 1 4 false false].

(** Fifty students and one row of 51 seats: all of one exam (61 250
    candidate separation constraints), or 45 of one exam and 5 of another
    (exactly 50 000 candidates). *)
Definition students_capA : list Student.t :=
  (λ i, Student.mk (Z.of_nat i) "x") <$> seq 0 50.
Definition students_capB : list Student.t :=
  (λ i, Student.mk (Z.of_nat i) (if (i <? 45)%nat then "x" else "y")) <$> seq 0 50.
Definition rooms_cap : list Room.t := [Room.mk "R1" 1 51 false false].

(** Room R1 used and student [i] at column [49 - i]: the truth values of the
    variables in creation order. *)
Definition cap_bits : list bool :=
  Eval vm_compute in
    true :: (i ← seq 0 50; j ← seq 0 51; [bool_decide (i + j = 49)%nat]).
Definition response_cap : CpSolverResponse :=
  {| status := FEASIBLE; solution := λ v, default false (cap_bits !! v) |}.

(** ** Notions used in the further properties *)

(** Lines kept of [n] rows or columns when every other one may be skipped. *)
Definition kept_lines (n : Z) (skip : bool) : nat :=
  Z.to_nat (if skip then (n + 1) `div` 2 else n).

(** The seat an assignment occupies. *)
Definition seat_of (a : Assignment.t) : string * Z * Z :=
  (Assignment.room_id a, Assignment.row a, Assignment.col a).

(** The variables a constraint mentions. *)
Definition constraint_vars (c : Constraint) : list BoolVar :=
  match c with
  | Equality lhs rhs | LessOrEqual lhs rhs => terms lhs ++ terms rhs
  end.

(** Three rows and three columns of which every other one is left empty. *)
Definition rooms_S : list Room.t := [Room.mk "R1" 3 3 true true].

(** * Properties *)

Lemma to_int_id z : -2147483648 ≤ z ≤ INT_MAX → to_int z = z.
Proof. unfold to_int, INT_MAX. intros ?. rewrite Z.mod_small; lia. Qed.

(** ** Keys are injective *)

Lemma occurs_app c s t : occurs c (s +:+ t) = occurs c s || occurs c t.
Proof. induction s as [|a s IH]; simpl; [done|]. rewrite IH. by destruct (bool_decide _). Qed.

Lemma pretty_N_char_no_underscore n : pretty_N_char n ≠ "_"%char.
Proof. unfold pretty_N_char. by repeat case_match. Qed.

Lemma occurs_pretty_N_go x s :
  occurs "_" (pretty_N_go x s) = occurs "_" s.
Proof.
  revert s. induction (N.lt_wf_0 x) as [x _ IH]; intros s.
  destruct (decide (x = 0%N)) as [->|Hx]; [by rewrite pretty_N_go_0|].
  rewrite pretty_N_go_step by lia.
  rewrite IH by (apply N.div_lt; lia). simpl.
  rewrite bool_decide_eq_false_2; [done|apply pretty_N_char_no_underscore].
Qed.

Lemma occurs_pretty_N (x : N) : occurs "_" (pretty x) = false.
Proof.
  unfold pretty, pretty_N. case_decide; [done|]. by rewrite occurs_pretty_N_go.
Qed.

Lemma occurs_pretty_nat (n : nat) : occurs "_" (pretty n) = false.
Proof. apply occurs_pretty_N. Qed.

Lemma occurs_pretty_Z (z : Z) : occurs "_" (pretty z) = false.
Proof.
  destruct z as [|p|p]; [done|apply occurs_pretty_N|].
  change (pretty (Z.neg p)) with ("-" +:+ pretty (N.pos p)).
  rewrite occurs_app, occurs_pretty_N. done.
Qed.

(** Two strings that agree after their first underscore-free field agree on
    the field and on the rest. *)
Lemma split_at_underscore s1 s2 t1 t2 :
  occurs "_" s1 = false → occurs "_" s2 = false →
  s1 +:+ String "_" t1 = s2 +:+ String "_" t2 → s1 = s2 ∧ t1 = t2.
Proof.
  revert s2. induction s1 as [|a s1 IH]; intros [|b s2]; simpl; intros H1 H2 Heq.
  - by simplify_eq.
  - by simplify_eq.
  - by simplify_eq.
  - simplify_eq. apply orb_false_iff in H1 as [_ H1]. apply orb_false_iff in H2 as [_ H2].
    destruct (IH _ H1 H2 H) as [-> ->]. done.
Qed.

Lemma var_key_inj sid ki pos sid' ki' pos' :
  var_key sid ki pos = var_key sid' ki' pos' → sid = sid' ∧ ki = ki' ∧ pos = pos'.
Proof.
  unfold var_key. intros Heq.
  apply split_at_underscore in Heq as [H1 Heq]; [|apply occurs_pretty_Z..].
  apply split_at_underscore in Heq as [H2 Heq]; [|apply occurs_pretty_nat..].
  apply split_at_underscore in Heq as [H3 H4]; [|apply occurs_pretty_Z..].
  apply (inj pretty) in H1, H2, H3, H4.
  destruct pos, pos'; simpl in *. by subst.
Qed.

(** ** Position precompute *)

Lemma StronglySorted_seqZ m n : StronglySorted Z.lt (seqZ m n).
Proof.
  remember (Z.to_nat n) as k eqn:Hk. revert m n Hk.
  induction k as [|k IH]; intros m n Hk.
  - rewrite seqZ_nil by lia. constructor.
  - rewrite seqZ_cons by lia. constructor; [apply IH; lia|].
    apply Forall_seqZ. lia.
Qed.

(** Concatenating sorted blocks along a sorted list gives a sorted list as
    soon as elements of a later block are above those of an earlier one. *)
Lemma StronglySorted_bind {A B} (R : relation A) (S : relation B)
    (f : A → list B) (l : list A) :
  StronglySorted R l →
  (∀ a, a ∈ l → StronglySorted S (f a)) →
  (∀ a a' b b', R a a' → b ∈ f a → b' ∈ f a' → S b b') →
  StronglySorted S (l ≫= f).
Proof.
  intros Hl Hblock Hcross. induction Hl as [|a l Hl IH Ha]; [constructor|].
  rewrite bind_cons. apply StronglySorted_app. split_and!.
  - intros b b' Hb Hb'. apply list_elem_of_bind in Hb' as (a' & Hb' & Ha').
    rewrite Forall_forall in Ha. eauto.
  - apply Hblock. left.
  - apply IH. intros; apply Hblock. by right.
Qed.

Lemma StronglySorted_irrefl_NoDup {A} (R : relation A) (l : list A) :
  (∀ a, ¬ R a a) → StronglySorted R l → NoDup l.
Proof.
  intros Hirr. induction 1 as [|a l _ IH Ha]; constructor; [|done].
  intros Hin. rewrite Forall_forall in Ha. by eapply Hirr, Ha.
Qed.

Lemma odd_test_mod r : 0 ≤ r → negb (Z.rem r 2 =? 0) = false ↔ r `mod` 2 = 0.
Proof.
  intros Hr. rewrite Z.rem_mod_nonneg by lia.
  rewrite negb_false_iff. apply Z.eqb_eq.
Qed.

Lemma elem_of_positions_of room p : p ∈ positions_of room ↔ usable room p.
Proof.
  unfold positions_of, usable, int_range. destruct p as [r c]. simpl.
  rewrite list_elem_of_bind. split.
  - intros (r' & Hin & Hr'). apply elem_of_seqZ in Hr'.
    destruct (Room.skip_rows room && negb (Z.rem r' 2 =? 0)) eqn:Hsr;
      [by apply elem_of_nil in Hin|].
    apply list_elem_of_bind in Hin as (c' & Hin & Hc'). apply elem_of_seqZ in Hc'.
    destruct (Room.skip_cols room && negb (Z.rem c' 2 =? 0)) eqn:Hsc;
      [by apply elem_of_nil in Hin|].
    apply list_elem_of_singleton in Hin. simplify_eq.
    apply andb_false_iff in Hsr, Hsc.
    rewrite !odd_test_mod in Hsr, Hsc by lia.
    split_and!; try lia; tauto.
  - intros ([Hr Hc] & Hsr & Hsc). exists r. split; [|apply elem_of_seqZ; lia].
    rewrite <-(odd_test_mod r) in Hsr by lia. rewrite <-(odd_test_mod c) in Hsc by lia.
    apply andb_false_iff in Hsr, Hsc. rewrite Hsr.
    apply list_elem_of_bind. exists c. split; [|apply elem_of_seqZ; lia].
    rewrite Hsc. apply list_elem_of_singleton. done.
Qed.

Lemma positions_of_sorted room : StronglySorted row_major (positions_of room).
Proof.
  unfold positions_of, int_range.
  apply (StronglySorted_bind Z.lt); [apply StronglySorted_seqZ|..].
  - intros r _. destruct (_ && _); [constructor|].
    apply (StronglySorted_bind Z.lt); [apply StronglySorted_seqZ|..].
    + intros c _. destruct (_ && _); repeat constructor.
    + intros c c' p p' Hlt Hp Hp'.
      destruct (_ && _); [by apply elem_of_nil in Hp|].
      destruct (_ && _); [by apply elem_of_nil in Hp'|].
      apply list_elem_of_singleton in Hp, Hp'. subst. right. simpl. lia.
  - intros r r' p p' Hlt Hp Hp'.
    destruct (_ && _); [by apply elem_of_nil in Hp|].
    destruct (Room.skip_rows room && negb (Z.rem r' 2 =? 0)); [by apply elem_of_nil in Hp'|].
    apply list_elem_of_bind in Hp as (c & Hp & _).
    apply list_elem_of_bind in Hp' as (c' & Hp' & _).
    destruct (_ && _); [by apply elem_of_nil in Hp|].
    destruct (Room.skip_cols room && negb (Z.rem c' 2 =? 0)); [by apply elem_of_nil in Hp'|].
    apply list_elem_of_singleton in Hp, Hp'. subst. left. simpl. lia.
Qed.

Lemma row_major_irrefl p : ¬ row_major p p.
Proof. unfold row_major. lia. Qed.

(** The loop of [precompute_positions] pushes [positions_of room] and one
    output line per room, in the order of the rooms. *)
Lemma precompute_positions_eq rooms :
  precompute_positions rooms =
    (positions_of <$> rooms, (λ room, room_line room (positions_of room)) <$> rooms).
Proof.
  unfold precompute_positions.
  enough (∀ acc1 acc2,
    foldl (λ '(room_positions, out) room,
             let positions := positions_of room in
             (room_positions ++ [positions], out ++ [room_line room positions]))
          (acc1, acc2) rooms =
    (acc1 ++ (positions_of <$> rooms),
     acc2 ++ ((λ room, room_line room (positions_of room)) <$> rooms))) as H
    by apply (H [] []).
  induction rooms as [|room rooms IH]; intros acc1 acc2; simpl.
  - by rewrite !app_nil_r.
  - rewrite IH, <-!app_assoc. done.
Qed.

(** C8. For every room, the precomputed position list holds exactly the
    usable positions of the room — those with [0 ≤ row < rows],
    [0 ≤ col < cols], [¬skip_rows ∨ row mod 2 = 0] and
    [¬skip_cols ∨ col mod 2 = 0] — each once, in row-major order (rows
    ascending, columns ascending within a row). *)
Theorem precompute_positions_exact (rooms : list Room.t) :
  Forall2 (λ room positions,
             (∀ p, p ∈ positions ↔ usable room p) ∧
             NoDup positions ∧
             StronglySorted row_major positions)
          rooms (precompute_positions rooms).1.
Proof.
  rewrite precompute_positions_eq. simpl.
  apply Forall2_fmap_r, Forall_Forall2_diag, Forall_forall.
  intros room _. split_and!.
  - apply elem_of_positions_of.
  - eapply StronglySorted_irrefl_NoDup; [apply row_major_irrefl|apply positions_of_sorted].
  - apply positions_of_sorted.
Qed.

(** ** Loops as enumerations *)

Section loops.
Context {A B S : Type}.

(** A loop whose body runs an inner loop over [f a] is one loop over the
    concatenation. *)
Lemma foldl_nested (g : S → B → S) (f : A → list B) (step : S → A → S) l st :
  (∀ st a, step st a = foldl g st (f a)) →
  foldl step st l = foldl g st (l ≫= f).
Proof.
  intros Hstep. revert st. induction l as [|a l IH]; intros st; simpl; [done|].
  by rewrite foldl_app, IH, Hstep.
Qed.

(** A loop whose body applies an action of lists (appending, emitting
    constraints) applies the action once to the concatenation. *)
Lemma foldl_action (act : list B → S → S) (step : S → A → S) (f : A → list B) l st :
  (∀ s, act [] s = s) →
  (∀ k1 k2 s, act (k1 ++ k2) s = act k2 (act k1 s)) →
  (∀ st a, step st a = act (f a) st) →
  foldl step st l = act (l ≫= f) st.
Proof.
  intros Hnil Happ Hstep. revert st.
  induction l as [|a l IH]; intros st; simpl; [by rewrite Hnil|].
  by rewrite IH, Hstep, Happ.
Qed.
End loops.

Lemma emit_all_nil m : emit_all [] m = m.
Proof. by destruct m. Qed.

Lemma emit_all_app cs1 cs2 m : emit_all (cs1 ++ cs2) m = emit_all cs2 (emit_all cs1 m).
Proof. unfold emit_all. simpl. by rewrite reverse_app, <-app_assoc. Qed.

Lemma foldl_emit {A} (step : CpModelBuilder.t → A → CpModelBuilder.t)
    (f : A → list Constraint) l m :
  (∀ m a, step m a = emit_all (f a) m) →
  foldl step m l = emit_all (l ≫= f) m.
Proof. apply foldl_action; [apply emit_all_nil|apply emit_all_app]. Qed.

Lemma foldl_collect {A B} (step : list B → A → list B) (f : A → list B) l acc :
  (∀ acc a, step acc a = acc ++ f a) →
  foldl step acc l = acc ++ (l ≫= f).
Proof.
  apply (foldl_action (λ k acc, acc ++ k)); intros.
  - apply app_nil_r.
  - apply app_assoc.
Qed.

(** ** Variable creation *)

Lemma create_room_vars_eq rooms m :
  create_room_vars rooms m =
    (seq (CpModelBuilder.vars m) (length rooms),
     CpModelBuilder.mk (CpModelBuilder.vars m + length rooms)
       (CpModelBuilder.emitted m) (CpModelBuilder.minimized m)).
Proof.
  unfold create_room_vars, room_indices.
  enough (∀ (l : list nat) y m,
    foldl (λ '(y, cp_model) _,
             let '(v, cp_model) := CpModelBuilder.NewBoolVar cp_model in (y ++ [v], cp_model))
          (y, m) l =
    (y ++ seq (CpModelBuilder.vars m) (length l),
     CpModelBuilder.mk (CpModelBuilder.vars m + length l)
       (CpModelBuilder.emitted m) (CpModelBuilder.minimized m))) as H.
  { rewrite H, length_seq. done. }
  clear. intros l. induction l as [|a l IH]; intros y m; simpl.
  - rewrite app_nil_r, Nat.add_0_r. by destruct m.
  - rewrite IH. simpl. rewrite <-app_assoc. simpl. do 2 f_equal. lia.
Qed.

Lemma create_student_vars_eq students rooms restrictions room_positions st :
  create_student_vars students rooms restrictions room_positions st =
    foldl (λ st key, new_x key st) st
      (created_keys students rooms restrictions room_positions).
Proof.
  unfold create_student_vars, created_keys.
  apply foldl_nested. intros st' student.
  apply foldl_nested. intros st'' ki.
  destruct (room_allowed _ _ _); [|done].
  by rewrite foldl_fmap.
Qed.

(** After creating the keys [keys] one by one, a key maps to the variable
    made at its last occurrence. *)
Lemma foldl_new_x_lookup keys st k v :
  vs_x (foldl (λ st key, new_x key st) st keys) !! k = Some v ↔
    (∃ i, keys !! i = Some k ∧ v = (CpModelBuilder.vars (vs_model st) + i)%nat ∧
          (∀ j, (i < j)%nat → keys !! j ≠ Some k)) ∨
    ((k ∉ keys) ∧ vs_x st !! k = Some v).
Proof.
  revert st. induction keys as [|key keys IH]; intros st; simpl.
  - split; [intros ?; right; split; [apply not_elem_of_nil|done]|].
    intros [(i & Hi & _)|[_ ?]]; [by rewrite lookup_nil in Hi|done].
  - rewrite IH.
    change (vs_x (new_x key st)) with (<[key := CpModelBuilder.vars (vs_model st)]> (vs_x st)).
    change (CpModelBuilder.vars (vs_model (new_x key st)))
      with (S (CpModelBuilder.vars (vs_model st))).
    split.
    + intros [(i & Hi & -> & Hlast)|[Hnot Hk]].
      * left. exists (S i). split_and!; [done|lia|].
        intros [|j] ?; [lia|]. simpl. apply Hlast. lia.
      * apply lookup_insert_Some in Hk as [[-> <-]|[Hne Hk]].
        -- left. exists 0%nat. split_and!; [done|lia|].
           intros [|j] ?; [lia|]. simpl. intros Hj.
           apply Hnot. by eapply list_elem_of_lookup_2.
        -- right. split; [|done]. rewrite elem_of_cons. by intros [?|?].
    + intros [(i & Hi & -> & Hlast)|[Hnot Hk]].
      * destruct i as [|i]; simpl in *.
        -- simplify_eq. right. split.
           ++ intros (j & Hj)%list_elem_of_lookup_1. by apply (Hlast (S j)); [lia|].
           ++ rewrite lookup_insert_eq. f_equal. lia.
        -- left. exists i. split_and!; [done|lia|].
           intros j ?. apply (Hlast (S j)). lia.
      * right. rewrite elem_of_cons in Hnot. split; [tauto|].
        rewrite lookup_insert_ne; [done|]. intros ->. tauto.
Qed.

Lemma foldl_new_x_vars keys st :
  CpModelBuilder.vars (vs_model (foldl (λ st key, new_x key st) st keys)) =
    (CpModelBuilder.vars (vs_model st) + length keys)%nat ∧
  CpModelBuilder.emitted (vs_model (foldl (λ st key, new_x key st) st keys)) =
    CpModelBuilder.emitted (vs_model st) ∧
  CpModelBuilder.minimized (vs_model (foldl (λ st key, new_x key st) st keys)) =
    CpModelBuilder.minimized (vs_model st).
Proof.
  revert st. induction keys as [|key keys IH]; intros st; simpl.
  - split_and!; [lia|done..].
  - destruct (IH (new_x key st)) as (-> & -> & ->). simpl. split_and!; [lia|done..].
Qed.

Lemma to_int_succ z : to_int (to_int z + 1) = to_int (z + 1).
Proof.
  unfold to_int.
  replace ((z + 2147483648) `mod` 4294967296 - 2147483648 + 1 + 2147483648)
    with ((z + 2147483648) `mod` 4294967296 + 1) by lia.
  rewrite Zplus_mod_idemp_l. do 2 f_equal. lia.
Qed.

Lemma foldl_new_x_count keys st n :
  vs_count st = to_int n →
  vs_count (foldl (λ st key, new_x key st) st keys) = to_int (n + Z.of_nat (length keys)).
Proof.
  revert st n. induction keys as [|key keys IH]; intros st n Hn; simpl.
  - by rewrite Z.add_0_r.
  - rewrite (IH _ (n + 1)).
    + f_equal. lia.
    + simpl. by rewrite Hn, to_int_succ.
Qed.

(** ** Assignment, linkage and capacity constraints *)

Lemma collect_student_vars_eq x rooms room_positions student :
  collect_student_vars x rooms room_positions student =
    student_vars x rooms room_positions (Student.id student).
Proof.
  unfold collect_student_vars, student_vars.
  rewrite (foldl_collect _
    (λ ki, room_positions !!! ki ≫=
             λ pos, option_list (x !! var_key (Student.id student) ki pos))); [done|].
  intros acc ki. apply foldl_collect. intros acc' pos.
  destruct (x !! _); simpl; [done|by rewrite app_nil_r].
Qed.

Lemma add_assignment_constraints_eq x students rooms room_positions m :
  add_assignment_constraints x students rooms room_positions m =
    emit_all (assignment_constraints x students rooms room_positions) m.
Proof.
  unfold add_assignment_constraints, assignment_constraints.
  apply foldl_emit. intros m' student. rewrite collect_student_vars_eq.
  case_bool_decide; [by rewrite emit_all_nil|done].
Qed.

Lemma seat_loop_eq x (y : list BoolVar) students ki pos acc m :
  foldl (λ '(seat_vars, cp_model) student,
          match x !! var_key (Student.id student) ki pos with
          | Some v =>
              (seat_vars ++ [v],
               CpModelBuilder.AddLessOrEqual (Var v) (Var (y !!! ki)) cp_model)
          | None => (seat_vars, cp_model)
          end)
        (acc, m) students =
    (acc ++ seat_vars x students ki pos,
     emit_all ((λ v, LessOrEqual (Var v) (Var (y !!! ki))) <$> seat_vars x students ki pos) m).
Proof.
  unfold seat_vars. revert acc m.
  induction students as [|student students IH]; intros acc m; simpl.
  - by rewrite app_nil_r, emit_all_nil.
  - destruct (x !! _) as [v|]; simpl; rewrite IH.
    + rewrite <-app_assoc. simpl. f_equal.
      change (LessOrEqual (Var v) (Var (y !!! ki)) :: ?l) with
        ([LessOrEqual (Var v) (Var (y !!! ki))] ++ l).
      by rewrite emit_all_app.
    + done.
Qed.

Lemma add_seat_constraints_eq x y students rooms room_positions m :
  add_seat_constraints x y students rooms room_positions m =
    emit_all (seat_constraints x y students rooms room_positions) m.
Proof.
  unfold add_seat_constraints, seat_constraints.
  apply foldl_emit. intros m' ki. apply foldl_emit. intros m'' pos.
  rewrite seat_loop_eq. simpl. rewrite emit_all_app.
  case_bool_decide; [by rewrite emit_all_nil|done].
Qed.

(** ** Pairs in ascending index order *)

Lemma fmap_bind_comm {A B C} (f : B → C) (g : A → list B) (l : list A) :
  f <$> (l ≫= g) = l ≫= λ a, f <$> g a.
Proof.
  induction l as [|a l IH]; [done|]. by rewrite !bind_cons, fmap_app, IH.
Qed.

Lemma lookup_total_seq_fmap {A} `{Inhabited A} (l : list A) :
  (λ j, l !!! j) <$> seq 0 (length l) = l.
Proof.
  apply list_eq. intros i. rewrite list_lookup_fmap.
  destruct (l !! i) as [x|] eqn:Hi.
  - rewrite lookup_seq_lt by (by eapply lookup_lt_Some). simpl.
    by rewrite (list_lookup_total_correct _ _ _ Hi).
  - apply lookup_ge_None in Hi. by rewrite lookup_seq_ge.
Qed.

(** The pairs visited by the [i]/[j] double loops of the source are the
    pairs [(l[i], l[j])] with [i < j], [i] ascending and, for each [i], [j]
    ascending. *)
Lemma ordered_pairs_by_index {A} `{Inhabited A} (l : list A) :
  ordered_pairs l = (λ ij, (l !!! ij.1, l !!! ij.2)) <$> index_pairs (length l).
Proof.
  induction l as [|a l IH]; [done|].
  unfold index_pairs in *. simpl length. simpl ordered_pairs.
  change (seq 0 (S (length l))) with (0%nat :: seq 1 (length l)).
  rewrite bind_cons, fmap_app, <-!list_fmap_compose. f_equal.
  - replace (S (length l) - 1)%nat with (length l) by lia.
    rewrite <-fmap_S_seq, <-list_fmap_compose.
    rewrite <-(lookup_total_seq_fmap l) at 1. rewrite <-list_fmap_compose.
    apply list_fmap_ext. by intros _ j _.
  - rewrite IH, !fmap_bind_comm, <-(fmap_S_seq 0 (length l)), list_fmap_bind.
    apply list_bind_ext; [|done]. intros i. simpl.
    rewrite <-(fmap_S_seq (S i)), <-!list_fmap_compose.
    apply list_fmap_ext. by intros _ j _.
Qed.

(** ** Separation constraints under the cap *)

Lemma push_capped_nil st : push_capped [] st = st.
Proof.
  unfold push_capped. rewrite take_nil. simpl.
  rewrite emit_all_nil, Z.add_0_r. by destruct st.
Qed.

Lemma push_capped_full cs st :
  MAX_SEPARATION_CONSTRAINTS ≤ separation_count st → push_capped cs st = st.
Proof.
  intros Hfull. unfold push_capped.
  replace (Z.to_nat _) with 0%nat by lia. rewrite take_0. simpl.
  rewrite emit_all_nil, Z.add_0_r. by destruct st.
Qed.

Lemma push_capped_app cs1 cs2 st :
  push_capped (cs1 ++ cs2) st = push_capped cs2 (push_capped cs1 st).
Proof.
  unfold push_capped. simpl.
  set (n := Z.to_nat (MAX_SEPARATION_CONSTRAINTS - separation_count st)).
  replace (Z.to_nat (MAX_SEPARATION_CONSTRAINTS -
             (separation_count st + Z.of_nat (length (take n cs1)))))
    with (n - length cs1)%nat by (rewrite length_take; lia).
  rewrite take_app, emit_all_app, length_app. f_equal. lia.
Qed.

Lemma push_capped_one l r st :
  separation_count st < MAX_SEPARATION_CONSTRAINTS →
  push_capped [LessOrEqual l r] st =
    {| sep_model := CpModelBuilder.AddLessOrEqual l r (sep_model st);
       separation_count := separation_count st + 1 |}.
Proof.
  intros Hlt. unfold push_capped.
  destruct (Z.to_nat (MAX_SEPARATION_CONSTRAINTS - separation_count st)) eqn:Hn; [lia|].
  simpl. by rewrite take_nil.
Qed.

Lemma foldl_push {A} (step : SepState → A → SepState) (f : A → list Constraint) l st :
  (∀ st a, step st a = push_capped (f a) st) →
  foldl step st l = push_capped (l ≫= f) st.
Proof. apply foldl_action; [apply push_capped_nil|apply push_capped_app]. Qed.

(** A guarded loop offers the candidates of its iterations in order; the
    body is only run, and only needs to behave, while the cap is not
    reached. *)
Lemma for_capped_eq {A} (body : A → SepState → SepState) (f : A → list Constraint) l st :
  (∀ a st, separation_count st < MAX_SEPARATION_CONSTRAINTS →
           body a st = push_capped (f a) st) →
  for_capped body l st = push_capped (l ≫= f) st.
Proof.
  intros Hbody. revert st. induction l as [|a l IH]; intros st; simpl.
  - by rewrite push_capped_nil.
  - destruct (Z.ltb_spec (separation_count st) MAX_SEPARATION_CONSTRAINTS).
    + by rewrite IH, Hbody, push_capped_app.
    + by rewrite push_capped_full.
Qed.

Lemma for_pairs_capped_eq {A} (body : A → A → SepState → SepState)
    (f : A * A → list Constraint) l st :
  (∀ a b st, separation_count st < MAX_SEPARATION_CONSTRAINTS →
             body a b st = push_capped (f (a, b)) st) →
  for_pairs_capped body l st = push_capped (ordered_pairs l ≫= f) st.
Proof.
  intros Hbody. revert st. induction l as [|a l IH]; intros st; simpl.
  - by rewrite push_capped_nil.
  - destruct (Z.ltb_spec (separation_count st) MAX_SEPARATION_CONSTRAINTS).
    + rewrite IH, (for_capped_eq _ (λ b, f (a, b))) by auto.
      by rewrite bind_app, push_capped_app, list_fmap_bind.
    + by rewrite push_capped_full.
Qed.

Lemma add_pair_constraint_eq x ki pos_i pos_j stud_i stud_j st :
  separation_count st < MAX_SEPARATION_CONSTRAINTS →
  add_pair_constraint x ki pos_i pos_j stud_i stud_j st =
    push_capped
      match x !! var_key stud_i ki pos_i, x !! var_key stud_j ki pos_j with
      | Some v1, Some v2 => [LessOrEqual (Sum [v1; v2]) (Const 1)]
      | _, _ => []
      end st.
Proof.
  intros Hlt. unfold add_pair_constraint.
  destruct (x !! var_key stud_i ki pos_i) as [v1|]; [|by rewrite push_capped_nil].
  destruct (x !! var_key stud_j ki pos_j) as [v2|]; [|by rewrite push_capped_nil].
  by rewrite push_capped_one.
Qed.

Lemma add_separation_constraints_eq x groups rooms room_positions st :
  add_separation_constraints x groups rooms room_positions st =
    push_capped (separation_candidates x groups rooms room_positions) st.
Proof.
  unfold add_separation_constraints, separation_candidates.
  apply foldl_push. intros st' exam_group.
  destruct (length exam_group.2 <? 2)%nat; [by rewrite push_capped_nil|].
  apply foldl_push. intros st'' ki.
  apply for_pairs_capped_eq. intros pos_i pos_j st3 _. simpl.
  destruct (is_adjacent pos_i pos_j); simpl; [|by rewrite push_capped_nil].
  apply for_pairs_capped_eq. intros stud_i stud_j st4 Hlt. simpl.
  by apply add_pair_constraint_eq.
Qed.

(** ** The built model *)

Section built.
Variable umap_order : list string → list string.
Variables (students : list Student.t) (rooms : list Room.t).
Variable restrictions : gmap string (list string).
Variable room_positions : list (list (Z * Z)).

Let b := build_model umap_order students rooms restrictions room_positions.
Let keys := created_keys students rooms restrictions room_positions.
Let groups := exam_groups umap_order students.

Lemma build_model_y : b_y b = seq 0 (length rooms).
Proof.
  subst b. unfold build_model. rewrite create_room_vars_eq. done.
Qed.

Lemma build_model_x key v :
  b_x b !! key = Some v ↔
    ∃ i, keys !! i = Some key ∧ v = (length rooms + i)%nat ∧
         (∀ j, (i < j)%nat → keys !! j ≠ Some key).
Proof.
  subst b keys. unfold build_model. rewrite create_room_vars_eq. simpl.
  rewrite create_student_vars_eq, foldl_new_x_lookup. simpl.
  rewrite lookup_empty. split; [|by left]. by intros [?|[_ ?]].
Qed.

Lemma build_model_x_is_Some key : is_Some (b_x b !! key) ↔ key ∈ keys.
Proof.
  split.
  - intros [v (i & Hi & _)%build_model_x]. by eapply list_elem_of_lookup_2.
  - intros Hin. apply list_elem_of_split_r in Hin as (l1 & l2 & Heq & Hnot).
    exists (length rooms + length l1)%nat. apply build_model_x.
    exists (length l1). rewrite Heq. split_and!.
    + by rewrite list_lookup_middle.
    + done.
    + intros j Hj Hlook. apply Hnot.
      rewrite lookup_app_r in Hlook by lia.
      destruct (j - length l1)%nat as [|n] eqn:Hn; [lia|]. simpl in Hlook.
      by eapply list_elem_of_lookup_2.
Qed.

Lemma build_model_constraints :
  constraints (CpModelBuilder.Build (b_model b)) =
    assignment_constraints (b_x b) students rooms room_positions ++
    seat_constraints (b_x b) (b_y b) students rooms room_positions ++
    take (Z.to_nat MAX_SEPARATION_CONSTRAINTS)
      (separation_candidates (b_x b) groups rooms room_positions).
Proof.
  subst b groups. unfold build_model. rewrite create_room_vars_eq. simpl.
  rewrite add_separation_constraints_eq, add_seat_constraints_eq,
    add_assignment_constraints_eq.
  unfold push_capped. simpl. rewrite Z.sub_0_r.
  rewrite create_student_vars_eq.
  destruct (foldl_new_x_vars
    (created_keys students rooms restrictions room_positions)
    {| vs_model := CpModelBuilder.mk (length rooms) [] (Const 0);
       vs_x := ∅; vs_count := 0 |}) as (_ & -> & _).
  simpl. rewrite app_nil_r, !reverse_app, !reverse_involutive.
  by rewrite <-app_assoc.
Qed.

Lemma build_model_separation_count :
  b_separation_count b =
    Z.of_nat (length (separation_candidates (b_x b) groups rooms room_positions))
      `min` MAX_SEPARATION_CONSTRAINTS.
Proof.
  subst b groups. unfold build_model. rewrite create_room_vars_eq. simpl.
  rewrite add_separation_constraints_eq. unfold push_capped. simpl.
  rewrite length_take. unfold MAX_SEPARATION_CONSTRAINTS. lia.
Qed.

Lemma build_model_num_vars :
  num_vars (CpModelBuilder.Build (b_model b)) = (length rooms + length keys)%nat.
Proof.
  subst b keys. unfold build_model. rewrite create_room_vars_eq. simpl.
  rewrite add_separation_constraints_eq, add_seat_constraints_eq,
    add_assignment_constraints_eq, create_student_vars_eq. simpl.
  by destruct (foldl_new_x_vars
    (created_keys students rooms restrictions room_positions)
    {| vs_model := CpModelBuilder.mk (length rooms) [] (Const 0);
       vs_x := ∅; vs_count := 0 |}) as (-> & _).
Qed.

Lemma build_model_variable_count :
  b_variable_count b = to_int (Z.of_nat (length keys)).
Proof.
  subst b keys. unfold build_model. rewrite create_room_vars_eq. simpl.
  rewrite create_student_vars_eq. by rewrite (foldl_new_x_count _ _ 0).
Qed.

Lemma build_model_objective :
  objective (CpModelBuilder.Build (b_model b)) = Sum (seq 0 (length rooms)).
Proof.
  subst b. unfold build_model. rewrite create_room_vars_eq. done.
Qed.
End built.

(** ** Exam groups *)

Lemma exam_to_students_lookup students e :
  exam_to_students students !!! e = exam_students students e.
Proof.
  unfold exam_to_students, exam_students.
  induction students as [|student students IH] using rev_ind; [done|].
  rewrite foldl_snoc, filter_app, fmap_app.
  destruct (decide (Student.exam student = e)) as [<-|Hne].
  - rewrite lookup_total_insert_eq, IH. f_equal.
    rewrite filter_cons_True by done. done.
  - rewrite lookup_total_insert_ne, IH by done.
    rewrite filter_cons_False by done. by rewrite app_nil_r.
Qed.

Lemma exam_groups_eq umap_order students :
  exam_groups umap_order students =
    (λ e, (e, exam_students students e)) <$> umap_order (Student.exam <$> students).
Proof.
  unfold exam_groups. apply list_fmap_ext. intros _ e _.
  by rewrite exam_to_students_lookup.
Qed.

(** ** Extraction *)

Lemma first_true_position_Some x r sid ki positions pos :
  first_true_position x r sid ki positions = Some pos ↔
    ∃ before after v,
      positions = before ++ pos :: after ∧
      x !! var_key sid ki pos = Some v ∧ solution r v = true ∧
      (∀ q w, q ∈ before → x !! var_key sid ki q = Some w → solution r w = false).
Proof.
  induction positions as [|p positions IH]; simpl.
  - split; [done|]. intros (before & ? & ? & Heq & _). by destruct before.
  - split.
    + destruct (x !! var_key sid ki p) as [v|] eqn:Hv.
      * unfold SolutionBooleanValue. destruct (solution r v) eqn:Htrue.
        -- intros [= <-]. exists [], positions, v. split_and!; try done.
           intros q w Hq. by apply elem_of_nil in Hq.
        -- intros (before & after & v' & -> & ? & ? & Hbefore)%IH.
           exists (p :: before), after, v'. split_and!; try done.
           intros q w [->|Hq]%elem_of_cons ?; [congruence|eauto].
      * intros (before & after & v' & -> & ? & ? & Hbefore)%IH.
        exists (p :: before), after, v'. split_and!; try done.
        intros q w [->|Hq]%elem_of_cons ?; [congruence|eauto].
    + intros (before & after & v & Heq & Hv & Htrue & Hbefore).
      destruct before as [|p' before]; simplify_eq/=.
      * unfold SolutionBooleanValue. by rewrite Hv, Htrue.
      * assert (first_true_position x r sid ki (before ++ pos :: after) = Some pos) as Hrec.
        { apply IH. exists before, after, v. split_and!; try done.
          intros q w Hq. apply Hbefore. by right. }
        destruct (x !! var_key sid ki p') as [w|] eqn:Hw; [|done].
        unfold SolutionBooleanValue. rewrite (Hbefore p' w); [done|left|done].
Qed.

Lemma first_true_position_None x r sid ki positions :
  first_true_position x r sid ki positions = None ↔
    ∀ q w, q ∈ positions → x !! var_key sid ki q = Some w → solution r w = false.
Proof.
  induction positions as [|p positions IH]; simpl.
  - split; [|done]. intros _ q w Hq. by apply elem_of_nil in Hq.
  - unfold SolutionBooleanValue. destruct (x !! var_key sid ki p) as [v|] eqn:Hv.
    + destruct (solution r v) eqn:Htrue.
      * split; [done|]. intros H. rewrite (H p v) in Htrue; [done|left|done].
      * rewrite IH. split.
        -- intros H q w [->|Hq]%elem_of_cons ?; [congruence|eauto].
        -- intros H q w Hq. apply H. by right.
    + rewrite IH. split.
      * intros H q w [->|Hq]%elem_of_cons ?; [congruence|eauto].
      * intros H q w Hq. apply H. by right.
Qed.

Lemma extract_assignments_eq x r students rooms room_positions :
  extract_assignments x r students rooms room_positions =
    students ≫= λ student, room_indices rooms ≫= λ ki,
      option_list (extracted_for x r rooms room_positions student ki).
Proof.
  unfold extract_assignments.
  rewrite (foldl_collect _ (λ student, room_indices rooms ≫= λ ki,
      option_list (extracted_for x r rooms room_positions student ki))); [done|].
  intros acc student. apply foldl_collect. intros acc' ki.
  unfold extracted_for. destruct (first_true_position _ _ _ _ _); simpl; [done|].
  by rewrite app_nil_r.
Qed.

(** ** The capacity test *)

Lemma total_capacity_no_wrap room_positions :
  Z.of_nat (sum_list (length <$> room_positions)) ≤ INT_MAX →
  total_capacity room_positions = Z.of_nat (sum_list (length <$> room_positions)).
Proof.
  unfold total_capacity.
  enough (∀ acc, 0 ≤ acc →
    acc + Z.of_nat (sum_list (length <$> room_positions)) ≤ INT_MAX →
    foldl (λ acc positions, to_int (acc + Z.of_nat (length positions))) acc room_positions
      = acc + Z.of_nat (sum_list (length <$> room_positions))) as H.
  { intros ?. by rewrite H. }
  unfold INT_MAX.
  induction room_positions as [|positions room_positions IH]; intros acc Hacc Hle; csimpl in *.
  - lia.
  - rewrite to_int_id by (unfold INT_MAX; lia). rewrite IH; lia.
Qed.

Lemma total_capacity_usable rooms :
  Z.of_nat (usable_capacity rooms) ≤ INT_MAX →
  total_capacity (precompute_positions rooms).1 = Z.of_nat (usable_capacity rooms).
Proof.
  rewrite precompute_positions_eq. apply total_capacity_no_wrap.
Qed.

(** ** The two paths of [solve] *)

Lemma solve_rejected solver umap_order solve_time students rooms restrictions timeout :
  rejected students rooms = true →
  solve solver umap_order solve_time students rooms restrictions timeout =
    {| assignments := [];
       cout := header_lines students rooms ++ ["ERROR: Not enough capacity!"];
       solver_call := None |}.
Proof.
  unfold rejected, solve, header_lines.
  destruct (precompute_positions rooms) as [room_positions room_lines]. simpl.
  intros ->. by rewrite <-!app_assoc.
Qed.

Lemma solve_accepted solver umap_order solve_time students rooms restrictions timeout :
  rejected students rooms = false →
  let b := built umap_order students rooms restrictions in
  let model := model_of umap_order students rooms restrictions in
  let response := solver (solver_parameters timeout) model in
  let returned :=
    match status response with
    | OPTIMAL | FEASIBLE =>
        extract_assignments (b_x b) response students rooms (precompute_positions rooms).1
    | _ => []
    end in
  solve solver umap_order solve_time students rooms restrictions timeout =
    {| assignments := returned;
       cout := header_lines students rooms ++
               ["Created " +:+ pretty (b_variable_count b) +:+ " variables";
                "Added " +:+ pretty (b_separation_count b) +:+ " separation constraints";
                "Starting C++ solver...";
                "C++ solver completed in " +:+ pretty solve_time +:+ "ms";
                "Status: " +:+ pretty (status_code (status response))] ++
               match status response with
               | OPTIMAL | FEASIBLE =>
                   ["C++ solver assigned " +:+ pretty (length returned) +:+ " students"]
               | _ => []
               end;
       solver_call := Some (solver_parameters timeout, model) |}.
Proof.
  unfold rejected, solve, header_lines, model_of, built, solver_parameters.
  destruct (precompute_positions rooms) as [room_positions room_lines]. simpl.
  intros ->. destruct (status _); simpl; rewrite <-?app_assoc; simpl; try done.
Qed.

(** Decidable facts about concrete inputs are settled by evaluation. *)
Ltac decide_by_compute := apply (bool_decide_unpack _); vm_compute; exact I.

(** ** What a satisfying assignment must do *)

Lemma satisfies_elem val m c :
  satisfies val m = true → c ∈ constraints m → holds val c = true.
Proof.
  unfold satisfies. rewrite forallb_forall. intros H Hc.
  apply H. by apply list_elem_of_In.
Qed.

Lemma eval_Sum_pos val vs : 0 < eval val (Sum vs) → ∃ v, v ∈ vs ∧ val v = true.
Proof.
  unfold eval. simpl. induction vs as [|v vs IH]; simpl; [lia|].
  destruct (val v) eqn:Hv.
  - intros _. exists v. split; [left|done].
  - simpl. intros (w & ? & ?)%IH. exists w. split; [by right|done].
Qed.

(** A student that must sit somewhere forces a room linked to all of the
    student's variables to be used. *)
Lemma seated_student_uses_room val m vs y :
  satisfies val m = true →
  Equality (Sum vs) (Const 1) ∈ constraints m →
  (∀ v, v ∈ vs → LessOrEqual (Var v) (Var y) ∈ constraints m) →
  val y = true.
Proof.
  intros Hsat Heq Hlink.
  pose proof (satisfies_elem _ _ _ Hsat Heq) as H1. simpl in H1.
  apply Z.eqb_eq in H1. change (eval val (Const 1)) with 1 in H1.
  destruct (eval_Sum_pos val vs) as (v & Hv & Htrue); [lia|].
  pose proof (satisfies_elem _ _ _ Hsat (Hlink v Hv)) as H2. simpl in H2.
  apply Z.leb_le in H2. unfold eval in H2. simpl in H2. rewrite Htrue in H2.
  destruct (val y); [done|simpl in H2; lia].
Qed.

(** ** Capacity checks (C7, C2) *)

(** C7. When the total number of usable seats is less than the number of
    students (a number that fits the [int] the source casts it to), [solve]
    returns the empty vector without calling the solver, after printing the
    capacity error. *)
Theorem insufficient_capacity_rejected solver umap_order solve_time students rooms restrictions timeout :
  Z.of_nat (length students) ≤ INT_MAX →
  (usable_capacity rooms < length students)%nat →
  let o := solve solver umap_order solve_time students rooms restrictions timeout in
  assignments o = [] ∧ solver_call o = None ∧
  last (cout o) = Some "ERROR: Not enough capacity!".
Proof.
  intros Hfit Hlt o. subst o. rewrite solve_rejected.
  - split_and!; [done..|]. exact (last_snoc _ _).
  - unfold rejected. rewrite total_capacity_usable by lia.
    rewrite to_int_id by (unfold INT_MAX in *; lia). apply Z.ltb_lt. lia.
Qed.

(** Scenario D: five students, three seats. *)
Lemma insufficient_capacity_scenario_D :
  Z.of_nat (length students_D) ≤ INT_MAX ∧
  (usable_capacity rooms_D < length students_D)%nat ∧
  (let o := solve unknown_solver first_inserted_first 15 students_D rooms_D ∅ 120 in
   assignments o = [] ∧ solver_call o = None ∧
   last (cout o) = Some "ERROR: Not enough capacity!").
Proof.
  assert (Z.of_nat (length students_D) ≤ INT_MAX) as H1 by (vm_compute; discriminate).
  assert (usable_capacity rooms_D < length students_D)%nat as H2 by (vm_compute; lia).
  split; [exact H1|]. split; [exact H2|].
  exact (insufficient_capacity_rejected unknown_solver first_inserted_first 15
           students_D rooms_D ∅ 120 H1 H2).
Defined.

(** C2, as the code has it. For an input with a restricted exam whose
    listed rooms have fewer usable seats than the exam has students, the
    only test made before the solver call is the one on the total capacity:
    [solve] returns without calling the solver exactly when the total number
    of usable seats is less than the number of students, and otherwise hands
    the built model to the solver. *)
Theorem restricted_shortage_only_total_checked
    solver umap_order solve_time students rooms restrictions timeout :
  restricted_shortage students rooms restrictions →
  Z.of_nat (length students) ≤ INT_MAX →
  Z.of_nat (usable_capacity rooms) ≤ INT_MAX →
  let o := solve solver umap_order solve_time students rooms restrictions timeout in
  (solver_call o = None ↔ (usable_capacity rooms < length students)%nat) ∧
  ((length students ≤ usable_capacity rooms)%nat →
   solver_call o =
     Some (solver_parameters timeout, model_of umap_order students rooms restrictions)).
Proof.
  intros _ Hfit Hcap o. subst o.
  assert (rejected students rooms = bool_decide (usable_capacity rooms < length students)%nat)
    as Hrej.
  { unfold rejected. rewrite total_capacity_usable by done.
    rewrite to_int_id by (unfold INT_MAX in *; lia).
    case_bool_decide; [apply Z.ltb_lt|apply Z.ltb_ge]; lia. }
  destruct (decide (usable_capacity rooms < length students)%nat) as [Hlt|Hge].
  - rewrite solve_rejected by (rewrite Hrej; by apply bool_decide_eq_true_2).
    simpl. split; [done|lia].
  - rewrite solve_accepted by (rewrite Hrej; by apply bool_decide_eq_false_2).
    simpl. split; [|done]. split; [done|lia].
Qed.

(** C2 fails as stated: the "art" exam is restricted to a room with no seat
    among the rooms, yet the solver is called, and with a response that is
    sound for the built model [solve] returns student 1's assignment. *)
Lemma restricted_shortage_reaches_solver :
  restricted_shortage students_R rooms_R restrictions_R ∧
  sound_response (model_of first_inserted_first students_R rooms_R restrictions_R) response_R ∧
  solver_call (solve (λ _ _, response_R) first_inserted_first 15
                 students_R rooms_R restrictions_R 120) ≠ None ∧
  assignments (solve (λ _ _, response_R) first_inserted_first 15
                 students_R rooms_R restrictions_R 120) = [Assignment.mk 1 "R1" 0 0].
Proof.
  split_and!.
  - exists "art", ["R9"]. split; [done|]. vm_compute. lia.
  - split; [intros _; by vm_compute|]. intros _ val Hsat.
    assert (val 0%nat = true) as Hy.
    { apply (seated_student_uses_room val _ [1; 2]%nat 0%nat Hsat).
      - decide_by_compute.
      - intros v Hv.
        repeat (apply elem_of_cons in Hv as [->|Hv]; [decide_by_compute|]).
        by apply elem_of_nil in Hv. }
    change (objective _) with (Sum [0%nat]). unfold eval. simpl. rewrite Hy. done.
  - by vm_compute.
  - by vm_compute.
Qed.

(** The same input: the total capacity (2) covers the two students, so the
    solver is called. *)
Lemma restricted_shortage_input_R :
  restricted_shortage students_R rooms_R restrictions_R ∧
  Z.of_nat (length students_R) ≤ INT_MAX ∧
  Z.of_nat (usable_capacity rooms_R) ≤ INT_MAX ∧
  (let o := solve unknown_solver first_inserted_first 15 students_R rooms_R restrictions_R 120 in
   (solver_call o = None ↔ (usable_capacity rooms_R < length students_R)%nat) ∧
   ((length students_R ≤ usable_capacity rooms_R)%nat →
    solver_call o =
      Some (solver_parameters 120,
            model_of first_inserted_first students_R rooms_R restrictions_R))).
Proof.
  assert (restricted_shortage students_R rooms_R restrictions_R) as H0.
  { exists "art", ["R9"]. split; [reflexivity|]. vm_compute. lia. }
  assert (Z.of_nat (length students_R) ≤ INT_MAX) as H1 by (vm_compute; discriminate).
  assert (Z.of_nat (usable_capacity rooms_R) ≤ INT_MAX) as H2 by (vm_compute; discriminate).
  split; [exact H0|]. split; [exact H1|]. split; [exact H2|].
  exact (restricted_shortage_only_total_checked unknown_solver first_inserted_first 15
           students_R rooms_R restrictions_R 120 H0 H1 H2).
Defined.

(** ** Which keys exist *)

Lemma precomputed_lookup rooms ki :
  (precompute_positions rooms).1 !!! ki =
    match rooms !! ki with Some room => positions_of room | None => [] end.
Proof.
  rewrite precompute_positions_eq. simpl.
  rewrite list_lookup_total_alt, list_lookup_fmap. by destruct (rooms !! ki).
Qed.

Lemma elem_of_created_keys students rooms restrictions room_positions key :
  key ∈ created_keys students rooms restrictions room_positions ↔
    ∃ student ki pos,
      student ∈ students ∧ (ki < length rooms)%nat ∧
      room_allowed restrictions (Student.exam student) (Room.id (rooms !!! ki)) = true ∧
      pos ∈ room_positions !!! ki ∧
      key = var_key (Student.id student) ki pos.
Proof.
  unfold created_keys, room_indices. rewrite list_elem_of_bind. split.
  - intros (student & (ki & Hkey & Hki%elem_of_seq)%list_elem_of_bind & Hstudent).
    destruct (room_allowed _ _ _) eqn:Hallowed; [|by apply elem_of_nil in Hkey].
    apply list_elem_of_fmap in Hkey as (pos & -> & Hpos).
    exists student, ki, pos. split_and!; try done. lia.
  - intros (student & ki & pos & Hstudent & Hki & Hallowed & Hpos & ->).
    exists student. split; [|done]. apply list_elem_of_bind.
    exists ki. split; [|apply elem_of_seq; lia].
    rewrite Hallowed. by apply list_elem_of_fmap_2.
Qed.

(** A variable exists for [(sid, ki, pos)] exactly when some student with
    that id may use room [ki] and [pos] is one of its positions. *)
Lemma decision_var_exists umap_order students rooms restrictions room_positions sid ki pos :
  is_Some (b_x (build_model umap_order students rooms restrictions room_positions)
             !! var_key sid ki pos) ↔
    ∃ student, student ∈ students ∧ Student.id student = sid ∧
      (ki < length rooms)%nat ∧
      room_allowed restrictions (Student.exam student) (Room.id (rooms !!! ki)) = true ∧
      pos ∈ room_positions !!! ki.
Proof.
  rewrite build_model_x_is_Some, elem_of_created_keys. split.
  - intros (student & ki' & pos' & ? & ? & ? & ? & (-> & -> & ->)%var_key_inj). eauto 10.
  - intros (student & ? & <- & ? & ? & ?). eauto 10.
Qed.

(** ** Extraction (C9, C6) *)

Lemma bind_option_list_length {A B} (f : A → option B) (l : list A) :
  length (l ≫= λ a, option_list (f a)) = length (filter (λ a, is_Some (f a)) l).
Proof.
  induction l as [|a l IH]; [done|]. rewrite bind_cons, length_app, IH.
  destruct (f a) eqn:Hfa; simpl.
  - rewrite filter_cons_True by (by rewrite Hfa). done.
  - rewrite filter_cons_False by (rewrite Hfa; by intros [??]). done.
Qed.

Lemma bind_all_nil {A B} (f : A → list B) (l : list A) :
  (∀ a, a ∈ l → f a = []) → l ≫= f = [].
Proof.
  induction l as [|a l IH]; intros H; [done|].
  rewrite bind_cons, H, IH; [done| |left]. intros; apply H. by right.
Qed.

Lemma row_major_before room before pos after q :
  positions_of room = before ++ pos :: after →
  q ∈ positions_of room → row_major q pos → q ∈ before.
Proof.
  intros Heq Hq Hlt. pose proof (positions_of_sorted room) as Hsorted.
  rewrite Heq in Hq, Hsorted.
  apply elem_of_app in Hq as [?|Hq]; [done|].
  apply StronglySorted_app_1_r, StronglySorted_cons in Hsorted as [Hafter _].
  apply elem_of_cons in Hq as [->|Hq].
  - by apply row_major_irrefl in Hlt.
  - rewrite Forall_forall in Hafter. specialize (Hafter q Hq).
    unfold row_major in *. lia.
Qed.

(** What an emitted assignment says about the room, the position and the
    response. *)
Lemma extracted_for_Some x r rooms student ki a :
  extracted_for x r rooms (precompute_positions rooms).1 student ki = Some a →
  ∃ room v,
    rooms !! ki = Some room ∧
    Assignment.student_id a = Student.id student ∧
    Assignment.room_id a = Room.id room ∧
    usable room (Assignment.row a, Assignment.col a) ∧
    x !! var_key (Student.id student) ki (Assignment.row a, Assignment.col a) = Some v ∧
    solution r v = true ∧
    (∀ q w, usable room q → row_major q (Assignment.row a, Assignment.col a) →
            x !! var_key (Student.id student) ki q = Some w → solution r w = false).
Proof.
  unfold extracted_for. rewrite precomputed_lookup.
  destruct (first_true_position _ _ _ _ _) as [pos|] eqn:Hfirst; [|done].
  intros [= <-]. simpl.
  apply first_true_position_Some in Hfirst as (before & after & v & Heq & Hv & Htrue & Hbefore).
  destruct (rooms !! ki) as [room|] eqn:Hroom; [|by destruct before].
  exists room, v. rewrite (list_lookup_total_correct _ _ _ Hroom).
  replace (pos.1, pos.2) with pos by by destruct pos.
  split_and!; try done.
  - apply elem_of_positions_of. rewrite Heq. apply elem_of_app. right. left.
  - intros q w Hq Hlt. apply Hbefore.
    eapply row_major_before; [done| |done]. by apply elem_of_positions_of.
Qed.

(** Every returned assignment was emitted for some student and room. *)
Lemma returned_assignment_origin solver umap_order solve_time students rooms restrictions timeout a :
  a ∈ assignments (solve solver umap_order solve_time students rooms restrictions timeout) →
  ∃ student ki,
    student ∈ students ∧
    extracted_for (b_x (built umap_order students rooms restrictions))
      (solver (solver_parameters timeout) (model_of umap_order students rooms restrictions))
      rooms (precompute_positions rooms).1 student ki = Some a.
Proof.
  destruct (rejected students rooms) eqn:Hrej.
  { rewrite solve_rejected by done. by intros ?%elem_of_nil. }
  rewrite solve_accepted by done. simpl.
  destruct (status _); try (by intros ?%elem_of_nil).
  all: rewrite extract_assignments_eq.
  all: intros (student & (ki & Ha & _)%list_elem_of_bind & Hs)%list_elem_of_bind.
  all: destruct (extracted_for _ _ _ _ _ _) as [a'|] eqn:He; [|by apply elem_of_nil in Ha].
  all: apply list_elem_of_singleton in Ha as ->; eauto.
Qed.

(** C9. Whatever the solver answers, the vector returned by [solve] is the
    concatenation, student by student in input order and room by room in
    ascending index order, of at most one assignment per (student, room)
    pair. Each assignment carries the student's id and the id of the input
    room at that index; its position is a usable position of that room, its
    variable exists and is true, and every usable position of the room that
    precedes it in row-major order has no true variable for the student. *)
Theorem extraction_well_formed solver umap_order solve_time students rooms restrictions timeout :
  let response := solver (solver_parameters timeout)
                    (model_of umap_order students rooms restrictions) in
  let x := b_x (built umap_order students rooms restrictions) in
  (∃ slot : Student.t → nat → option Assignment.t,
    assignments (solve solver umap_order solve_time students rooms restrictions timeout) =
      (students ≫= λ student, room_indices rooms ≫= λ ki, option_list (slot student ki)) ∧
    ∀ student ki a, slot student ki = Some a →
      ∃ room v,
        rooms !! ki = Some room ∧
        Assignment.student_id a = Student.id student ∧
        Assignment.room_id a = Room.id room ∧
        usable room (Assignment.row a, Assignment.col a) ∧
        x !! var_key (Student.id student) ki (Assignment.row a, Assignment.col a) = Some v ∧
        solution response v = true ∧
        (∀ q w, usable room q → row_major q (Assignment.row a, Assignment.col a) →
                x !! var_key (Student.id student) ki q = Some w →
                solution response w = false)) ∧
  (∀ a, a ∈ assignments (solve solver umap_order solve_time students rooms restrictions timeout) →
     ∃ room, room ∈ rooms ∧ Assignment.room_id a = Room.id room ∧
             usable room (Assignment.row a, Assignment.col a)).
Proof.
  intros response x.
  enough (∃ slot : Student.t → nat → option Assignment.t,
    assignments (solve solver umap_order solve_time students rooms restrictions timeout) =
      (students ≫= λ student, room_indices rooms ≫= λ ki, option_list (slot student ki)) ∧
    ∀ student ki a, slot student ki = Some a →
      ∃ room v,
        rooms !! ki = Some room ∧
        Assignment.student_id a = Student.id student ∧
        Assignment.room_id a = Room.id room ∧
        usable room (Assignment.row a, Assignment.col a) ∧
        x !! var_key (Student.id student) ki (Assignment.row a, Assignment.col a) = Some v ∧
        solution response v = true ∧
        (∀ q w, usable room q → row_major q (Assignment.row a, Assignment.col a) →
                x !! var_key (Student.id student) ki q = Some w →
                solution response w = false)) as (slot & Heq & Hslot).
  { split; [by exists slot|]. intros a. rewrite Heq.
    intros (student & (ki & Ha & _)%list_elem_of_bind & _)%list_elem_of_bind.
    destruct (slot student ki) as [a'|] eqn:Hs; [|by apply elem_of_nil in Ha].
    apply list_elem_of_singleton in Ha as ->.
    destruct (Hslot _ _ _ Hs) as (room & v & Hroom & _ & ? & ? & _).
    exists room. split_and!; try done. by eapply list_elem_of_lookup_2. }
  assert (∀ l : list Student.t,
    [] = (l ≫= λ _ : Student.t, room_indices rooms ≫= λ _ : nat,
            option_list (@None Assignment.t))) as Hempty.
  { intros l. symmetry. apply bind_all_nil. intros _ _. by apply bind_all_nil. }
  destruct (rejected students rooms) eqn:Hrej.
  { exists (λ _ _, None). rewrite solve_rejected by done. split; [apply Hempty|done]. }
  rewrite solve_accepted by done. simpl. fold response.
  destruct (status response) eqn:Hstatus;
    try (exists (λ _ _, None); split; [apply Hempty|done]).
  all: exists (extracted_for x response rooms (precompute_positions rooms).1).
  all: split; [apply extract_assignments_eq|].
  all: intros student ki a; apply extracted_for_Some.
Qed.

Lemma has_true_var_spec x r room_positions sid ki :
  has_true_var x r room_positions sid ki = true ↔
    is_Some (first_true_position x r sid ki (room_positions !!! ki)).
Proof.
  unfold has_true_var. induction (room_positions !!! ki) as [|pos positions IH]; simpl.
  - split; [done|by intros [??]].
  - unfold SolutionBooleanValue. destruct (x !! var_key sid ki pos) as [v|]; simpl; [|done].
    destruct (solution r v); simpl; [|done]. split; [by eexists|done].
Qed.

(** C6, as the code has it. With status [OPTIMAL] or [FEASIBLE] the
    extraction makes no check on the number of true variables of a student
    and always returns a vector: the concatenation over the students, in
    input order, of one assignment of the student for every room in which
    one of the student's variables is true — none when there is no such
    room, several when there are several. *)
Theorem extraction_makes_no_check solver umap_order solve_time students rooms restrictions timeout :
  let response := solver (solver_parameters timeout)
                    (model_of umap_order students rooms restrictions) in
  let x := b_x (built umap_order students rooms restrictions) in
  rejected students rooms = false →
  status response = OPTIMAL ∨ status response = FEASIBLE →
  ∃ per_student : Student.t → list Assignment.t,
    assignments (solve solver umap_order solve_time students rooms restrictions timeout) =
      students ≫= per_student ∧
    ∀ student,
      Forall (λ a, Assignment.student_id a = Student.id student) (per_student student) ∧
      length (per_student student) =
        length (filter (λ ki, has_true_var x response (precompute_positions rooms).1
                                (Student.id student) ki = true)
                       (room_indices rooms)).
Proof.
  intros response x Hrej Hstatus.
  exists (λ student, room_indices rooms ≫= λ ki,
            option_list (extracted_for x response rooms (precompute_positions rooms).1
                           student ki)).
  split.
  - rewrite solve_accepted by done. simpl. fold response.
    destruct Hstatus as [-> | ->]; apply extract_assignments_eq.
  - intros student. split.
    + apply Forall_forall. intros a (ki & Ha & _)%list_elem_of_bind.
      unfold extracted_for in Ha. destruct (first_true_position _ _ _ _ _); [|by apply elem_of_nil in Ha].
      by apply list_elem_of_singleton in Ha as ->.
    + rewrite bind_option_list_length. f_equal. apply list_filter_iff. intros ki.
      rewrite has_true_var_spec. unfold extracted_for. by rewrite fmap_is_Some.
Qed.

(** One student, two rooms, every variable true. *)
Lemma extraction_makes_no_check_input_T :
  rejected students_T rooms_T = false ∧
  (status response_T = OPTIMAL ∨ status response_T = FEASIBLE) ∧
  ∃ per_student : Student.t → list Assignment.t,
    assignments (solve (λ _ _, response_T) first_inserted_first 15 students_T rooms_T ∅ 120) =
      students_T ≫= per_student ∧
    ∀ student,
      Forall (λ a, Assignment.student_id a = Student.id student) (per_student student) ∧
      length (per_student student) =
        length (filter (λ ki, has_true_var
                                (b_x (built first_inserted_first students_T rooms_T ∅))
                                response_T (precompute_positions rooms_T).1
                                (Student.id student) ki = true)
                       (room_indices rooms_T)).
Proof.
  assert (rejected students_T rooms_T = false) as H1 by (vm_compute; reflexivity).
  assert (status response_T = OPTIMAL ∨ status response_T = FEASIBLE) as H2
    by (left; reflexivity).
  split; [exact H1|]. split; [exact H2|].
  exact (extraction_makes_no_check (λ _ _, response_T) first_inserted_first 15
           students_T rooms_T ∅ 120 H1 H2).
Defined.

(** C6 fails as stated: the response has status [OPTIMAL] and makes two
    decision variables of student 0 true, and [solve] returns a vector with
    two assignments for that student. *)
Lemma two_true_variables_two_assignments :
  status response_T = OPTIMAL ∧
  length (true_vars_of (b_x (built first_inserted_first students_T rooms_T ∅)) response_T
            rooms_T (precompute_positions rooms_T).1 0) = 2%nat ∧
  assignments (solve (λ _ _, response_T) first_inserted_first 15 students_T rooms_T ∅ 120) =
    [Assignment.mk 0 "R1" 0 0; Assignment.mk 0 "R2" 0 0].
Proof. split_and!; by vm_compute. Qed.

(** ** Students without a variable (C3) *)

Lemma no_student_vars_no_key umap_order students rooms restrictions sid :
  student_vars (b_x (built umap_order students rooms restrictions)) rooms
    (precompute_positions rooms).1 sid = [] →
  ∀ ki pos, b_x (built umap_order students rooms restrictions) !! var_key sid ki pos = None.
Proof.
  unfold built. intros Hnone ki pos.
  destruct (b_x _ !! var_key sid ki pos) as [v|] eqn:Hv; [|done].
  assert (v ∈ student_vars
                (b_x (build_model umap_order students rooms restrictions
                        (precompute_positions rooms).1))
                rooms (precompute_positions rooms).1 sid) as Hin;
    [|by rewrite Hnone in Hin; apply elem_of_nil in Hin].
  destruct (proj1 (decision_var_exists umap_order students rooms restrictions
                     (precompute_positions rooms).1 sid ki pos))
    as (student & _ & _ & Hki & _ & Hpos); [by eexists|].
  unfold student_vars. apply list_elem_of_bind. exists ki.
  split; [|apply elem_of_seq; lia].
  apply list_elem_of_bind. exists pos. split; [|done].
  rewrite Hv. left.
Qed.

Lemma model_equalities umap_order students rooms restrictions l r :
  Equality l r ∈ constraints (model_of umap_order students rooms restrictions) →
  terms l ≠ [] ∧ r = Const 1 ∧
  ∃ student, student ∈ students ∧
    l = Sum (student_vars (b_x (built umap_order students rooms restrictions)) rooms
               (precompute_positions rooms).1 (Student.id student)).
Proof.
  unfold model_of, built. rewrite build_model_constraints.
  rewrite !elem_of_app. intros [Hin|[Hin|Hin]].
  - unfold assignment_constraints in Hin.
    apply list_elem_of_bind in Hin as (student & Hin & Hstudent).
    case_bool_decide as Hvars; [by apply elem_of_nil in Hin|].
    apply list_elem_of_singleton in Hin. simplify_eq. eauto.
  - unfold seat_constraints in Hin.
    apply list_elem_of_bind in Hin as (ki & Hin & _).
    apply list_elem_of_bind in Hin as (pos & Hin & _).
    apply elem_of_app in Hin as [Hin|Hin].
    + by apply list_elem_of_fmap in Hin as (? & ? & _).
    + case_bool_decide; [by apply elem_of_nil in Hin|].
      by apply list_elem_of_singleton in Hin.
  - apply subseteq_take in Hin. unfold separation_candidates in Hin.
    apply list_elem_of_bind in Hin as (g & Hin & _).
    destruct (_ <? _)%nat; [by apply elem_of_nil in Hin|].
    apply list_elem_of_bind in Hin as (ki & Hin & _).
    apply list_elem_of_bind in Hin as (pp & Hin & _).
    destruct (is_adjacent _ _); [|by apply elem_of_nil in Hin].
    apply list_elem_of_bind in Hin as (ss & Hin & _).
    repeat case_match; try (by apply elem_of_nil in Hin).
    by apply list_elem_of_singleton in Hin.
Qed.

(** C3, as the code has it. A student for whom no decision variable was
    created gets no assignment constraint: every equality of the built model
    is the sum-equals-one constraint of a student that has variables, so the
    student does not make the model infeasible; and no vector returned by
    [solve] holds an assignment for that student's id. *)
Theorem student_without_variables_skipped
    solver umap_order solve_time students rooms restrictions timeout student :
  let x := b_x (built umap_order students rooms restrictions) in
  student ∈ students →
  student_vars x rooms (precompute_positions rooms).1 (Student.id student) = [] →
  (∀ ki pos, x !! var_key (Student.id student) ki pos = None) ∧
  (∀ l r, Equality l r ∈ constraints (model_of umap_order students rooms restrictions) →
          terms l ≠ [] ∧ r = Const 1) ∧
  (∀ a, a ∈ assignments (solve solver umap_order solve_time students rooms restrictions timeout) →
        Assignment.student_id a ≠ Student.id student).
Proof.
  intros x _ Hnone.
  pose proof (no_student_vars_no_key _ _ _ _ _ Hnone) as Hkeys.
  split_and!; [done| |].
  - intros l r (? & ? & _)%model_equalities. done.
  - intros a (student' & ki & _ & Hex)%returned_assignment_origin Hid.
    apply extracted_for_Some in Hex as (room & v & _ & Hsid & _ & _ & Hv & _).
    rewrite <-Hsid, Hid in Hv. fold x in Hv. by rewrite Hkeys in Hv.
Qed.

(** Student 7, whose exam is restricted to no room. *)
Lemma student_without_variables_input_E :
  Student.mk 7 "art" ∈ students_E ∧
  student_vars (b_x (built first_inserted_first students_E rooms_E restrictions_E)) rooms_E
    (precompute_positions rooms_E).1 7 = [] ∧
  (∀ a, a ∈ assignments (solve (λ _ _, response_E) first_inserted_first 15
                           students_E rooms_E restrictions_E 120) →
        Assignment.student_id a ≠ 7).
Proof.
  assert (Student.mk 7 "art" ∈ students_E) as H1 by left.
  assert (student_vars (b_x (built first_inserted_first students_E rooms_E restrictions_E))
            rooms_E (precompute_positions rooms_E).1 7 = []) as H2
    by (vm_compute; reflexivity).
  split; [exact H1|]. split; [exact H2|].
  exact (proj2 (proj2 (student_without_variables_skipped (λ _ _, response_E)
           first_inserted_first 15 students_E rooms_E restrictions_E 120
           (Student.mk 7 "art") H1 H2))).
Defined.

(** C3 fails as stated: student 7's exam is restricted to the empty list,
    no variable is created for the student, yet the built model is feasible
    (the response below satisfies it and is optimal), and with that response
    [solve] returns a vector that omits student 7. *)
Lemma unseatable_student_silently_omitted :
  student_vars (b_x (built first_inserted_first students_E rooms_E restrictions_E)) rooms_E
    (precompute_positions rooms_E).1 7 = [] ∧
  sound_response (model_of first_inserted_first students_E rooms_E restrictions_E) response_E ∧
  assignments (solve (λ _ _, response_E) first_inserted_first 15
                 students_E rooms_E restrictions_E 120) = [Assignment.mk 8 "R1" 0 0].
Proof.
  split_and!.
  - by vm_compute.
  - split; [intros _; by vm_compute|]. intros _ val Hsat.
    assert (val 0%nat = true) as Hy.
    { apply (seated_student_uses_room val _ [1; 2]%nat 0%nat Hsat).
      - decide_by_compute.
      - intros v Hv.
        repeat (apply elem_of_cons in Hv as [->|Hv]; [decide_by_compute|]).
        by apply elem_of_nil in Hv. }
    change (objective _) with (Sum [0%nat]). unfold eval. simpl. rewrite Hy. done.
  - by vm_compute.
Qed.

(** ** Separation (C1) *)

(** C1 fails on the code. On scenario A of the specification the cap is not
    reached (two separation constraints are emitted); the response below
    satisfies every constraint of the built model and is optimal, so the
    solver may return it; and [solve] then returns students 0 and 1, who
    take the same exam, at the adjacent seats (0,1) and (0,0) of room R1.
    The separation loop only forbids "earlier student of the group at the
    earlier position, later student at the later position" and never the
    mirrored placement. (With a single exam the order of the hash map plays
    no role.) *)
Theorem adjacent_same_exam_seats_returned :
  b_separation_count (built first_inserted_first students_A rooms_A ∅) = 2 ∧
  sound_response (model_of first_inserted_first students_A rooms_A ∅) response_A ∧
  assignments (solve (λ _ _, response_A) first_inserted_first 15 students_A rooms_A ∅ 120) =
    [Assignment.mk 0 "R1" 0 1; Assignment.mk 1 "R1" 0 0] ∧
  is_adjacent (0, 1) (0, 0) = true ∧
  solve (λ _ _, response_A) last_inserted_first 15 students_A rooms_A ∅ 120 =
    solve (λ _ _, response_A) first_inserted_first 15 students_A rooms_A ∅ 120.
Proof.
  split_and!.
  - by vm_compute.
  - split; [intros _; by vm_compute|]. intros _ val Hsat.
    assert (val 0%nat = true) as Hy.
    { apply (seated_student_uses_room val _ [1; 2; 3]%nat 0%nat Hsat).
      - decide_by_compute.
      - intros v Hv.
        repeat (apply elem_of_cons in Hv as [->|Hv]; [decide_by_compute|]).
        by apply elem_of_nil in Hv. }
    change (objective _) with (Sum [0%nat]). unfold eval. simpl. rewrite Hy. done.
  - by vm_compute.
  - done.
  - by vm_compute.
Qed.

(** ** Rooms without seats (C10) *)

Lemma positions_of_degenerate room :
  Room.rows room ≤ 0 ∨ Room.cols room ≤ 0 → positions_of room = [].
Proof.
  intros Hdeg. apply elem_of_nil_inv. intros p Hp%elem_of_positions_of.
  unfold usable in Hp. lia.
Qed.

Lemma room_id_lookup_ext (rooms rooms' : list Room.t) :
  Room.id <$> rooms = Room.id <$> rooms' →
  ∀ ki : nat, Room.id (rooms !!! ki) = Room.id (rooms' !!! ki).
Proof.
  intros Hids ki. rewrite !list_lookup_total_alt.
  assert (Room.id <$> rooms !! ki = Room.id <$> rooms' !! ki) as H
    by by rewrite <-!list_lookup_fmap, Hids.
  destruct (rooms !! ki), (rooms' !! ki); by simplify_eq/=.
Qed.

Section room_views.
Variables rooms rooms' : list Room.t.
Hypothesis Hviews : room_view <$> rooms = room_view <$> rooms'.

Lemma views_ids : Room.id <$> rooms = Room.id <$> rooms'.
Proof.
  change Room.id with (fst ∘ room_view).
  by rewrite !(list_fmap_compose room_view fst), Hviews.
Qed.

Lemma views_length : length rooms = length rooms'.
Proof. by rewrite <-(length_fmap room_view rooms), Hviews, length_fmap. Qed.

Lemma views_precompute : precompute_positions rooms = precompute_positions rooms'.
Proof.
  rewrite !precompute_positions_eq. f_equal.
  - change positions_of with (snd ∘ room_view).
    by rewrite !(list_fmap_compose room_view snd), Hviews.
  - change (λ room, room_line room (positions_of room))
      with ((λ v : string * list (Z * Z),
               "Room " +:+ v.1 +:+ ": " +:+ pretty (length v.2) +:+ " positions")
            ∘ room_view).
    by rewrite !(list_fmap_compose room_view), Hviews.
Qed.

Lemma views_created_keys students restrictions room_positions :
  created_keys students rooms restrictions room_positions =
    created_keys students rooms' restrictions room_positions.
Proof.
  unfold created_keys, room_indices. rewrite views_length.
  apply list_bind_ext; [|done]. intros student.
  apply list_bind_ext; [|done]. intros ki.
  by rewrite (room_id_lookup_ext _ _ views_ids).
Qed.

Lemma views_build_model umap_order students restrictions room_positions :
  build_model umap_order students rooms restrictions room_positions =
    build_model umap_order students rooms' restrictions room_positions.
Proof.
  unfold build_model. rewrite !create_room_vars_eq, !create_student_vars_eq.
  rewrite views_created_keys.
  unfold add_assignment_constraints, collect_student_vars, add_seat_constraints,
    add_separation_constraints, room_indices.
  by rewrite views_length.
Qed.

Lemma views_extract x r students room_positions :
  extract_assignments x r students rooms room_positions =
    extract_assignments x r students rooms' room_positions.
Proof.
  rewrite !extract_assignments_eq. unfold room_indices. rewrite views_length.
  apply list_bind_ext; [|done]. intros student.
  apply list_bind_ext; [|done]. intros ki.
  unfold extracted_for. by rewrite (room_id_lookup_ext _ _ views_ids).
Qed.

(** [solve] reads the rooms only through their ids and positions. *)
Lemma views_solve solver umap_order solve_time students restrictions timeout :
  solve solver umap_order solve_time students rooms restrictions timeout =
    solve solver umap_order solve_time students rooms' restrictions timeout.
Proof.
  unfold solve. rewrite views_precompute, views_length.
  destruct (precompute_positions rooms') as [room_positions room_lines].
  rewrite views_build_model.
  destruct (_ <? _); [done|].
  destruct (status _); try done; by rewrite views_extract.
Qed.
End room_views.

(** C10. A room with [rows ≤ 0] or [cols ≤ 0] is harmless: the vector of
    precomputed positions still has one entry per room (every index the
    loops use is in range) and the room's entry is empty, so the room adds
    nothing to the capacity; no decision variable has the room's index; and
    [solve] behaves — returned vector, output, solver call — exactly as it
    does when the room is replaced by one of the same id with no seat. *)
Theorem degenerate_room_is_seatless
    solver umap_order solve_time students rooms restrictions timeout ki room :
  rooms !! ki = Some room →
  Room.rows room ≤ 0 ∨ Room.cols room ≤ 0 →
  length (precompute_positions rooms).1 = length rooms ∧
  (precompute_positions rooms).1 !! ki = Some [] ∧
  usable_capacity rooms = usable_capacity (delete ki rooms) ∧
  (∀ sid pos, b_x (built umap_order students rooms restrictions) !! var_key sid ki pos = None) ∧
  solve solver umap_order solve_time students rooms restrictions timeout =
    solve solver umap_order solve_time students (<[ki := without_seats room]> rooms) restrictions timeout.
Proof.
  intros Hroom Hdeg. pose proof (positions_of_degenerate room Hdeg) as Hnil.
  split_and!.
  - rewrite precompute_positions_eq. apply length_fmap.
  - rewrite precompute_positions_eq. simpl. by rewrite list_lookup_fmap, Hroom, <-Hnil.
  - unfold usable_capacity.
    rewrite <-(take_drop_middle rooms ki room Hroom) at 1.
    rewrite delete_take_drop, !fmap_app, !sum_list_with_app. csimpl. rewrite Hnil. simpl. lia.
  - intros sid pos. apply eq_None_not_Some.
    intros (student & _ & _ & _ & _ & Hpos)%decision_var_exists.
    rewrite precomputed_lookup, Hroom, Hnil in Hpos. by apply elem_of_nil in Hpos.
  - apply views_solve. rewrite list_fmap_insert. symmetry. apply list_insert_id.
    rewrite list_lookup_fmap, Hroom. simpl. f_equal. unfold room_view. simpl.
    rewrite Hnil, (positions_of_degenerate (without_seats room)); [done|]. simpl. lia.
Qed.

(** A room with -3 rows at index 0. *)
Lemma degenerate_room_input_Z :
  rooms_Z !! 0%nat = Some (Room.mk "R0" (-3) 5 false true) ∧
  (Room.rows (Room.mk "R0" (-3) 5 false true) ≤ 0 ∨
   Room.cols (Room.mk "R0" (-3) 5 false true) ≤ 0) ∧
  length (precompute_positions rooms_Z).1 = length rooms_Z ∧
  (precompute_positions rooms_Z).1 !! 0%nat = Some [] ∧
  usable_capacity rooms_Z = usable_capacity (delete 0%nat rooms_Z) ∧
  (∀ sid pos, b_x (built first_inserted_first students_Z rooms_Z ∅)
                !! var_key sid 0 pos = None) ∧
  solve unknown_solver first_inserted_first 15 students_Z rooms_Z ∅ 120 =
    solve unknown_solver first_inserted_first 15 students_Z
      (<[0%nat := without_seats (Room.mk "R0" (-3) 5 false true)]> rooms_Z) ∅ 120.
Proof.
  assert (rooms_Z !! 0%nat = Some (Room.mk "R0" (-3) 5 false true)) as H1 by reflexivity.
  assert (Room.rows (Room.mk "R0" (-3) 5 false true) ≤ 0 ∨
          Room.cols (Room.mk "R0" (-3) 5 false true) ≤ 0) as H2 by (left; simpl; lia).
  split; [exact H1|]. split; [exact H2|].
  exact (degenerate_room_is_seatless unknown_solver first_inserted_first 15
           students_Z rooms_Z ∅ 120 0%nat _ H1 H2).
Defined.

(** ** Order of emission (C5) *)

(** Both sample orders are orders a hash map may have: they list every
    inserted key once. *)
Lemma sample_orders_list_keys_once keys :
  (NoDup (last_inserted_first keys) ∧ ∀ k, k ∈ last_inserted_first keys ↔ k ∈ keys) ∧
  (NoDup (first_inserted_first keys) ∧ ∀ k, k ∈ first_inserted_first keys ↔ k ∈ keys).
Proof.
  unfold first_inserted_first, last_inserted_first. split_and!.
  - apply NoDup_remove_dups.
  - intros k. by rewrite elem_of_remove_dups, elem_of_reverse.
  - rewrite reverse_Permutation. apply NoDup_remove_dups.
  - intros k. by rewrite elem_of_reverse, elem_of_remove_dups, elem_of_reverse.
Qed.

(** C5, as the code has it. The model is a function of the input and of the
    order in which the exam hash map yields its keys. The room variables are
    numbered by room index and the decision variables after them in
    creation order (students in input order, allowed rooms ascending,
    positions in precomputed order; a key created twice keeps its last
    variable); the variable count is their number, as an [int]. The
    constraints are the assignment constraints, the
    linkage and capacity constraints, and the first 50 000 separation
    candidates, the candidates being enumerated by exam group (hash-map
    order, students of a group in input order), room (ascending), adjacent
    position pair (ascending) and student pair (ascending); the separation
    count is the number of candidates capped at 50 000. *)
Theorem model_emission_order umap_order students rooms restrictions :
  let room_positions := (precompute_positions rooms).1 in
  let b := built umap_order students rooms restrictions in
  let m := model_of umap_order students rooms restrictions in
  let keys := created_keys students rooms restrictions room_positions in
  let groups := (λ e, (e, exam_students students e)) <$>
                  umap_order (Student.exam <$> students) in
  let candidates := separation_candidates (b_x b) groups rooms room_positions in
  num_vars m = (length rooms + length keys)%nat ∧
  b_variable_count b = to_int (Z.of_nat (length keys)) ∧
  b_y b = seq 0 (length rooms) ∧
  (∀ key v, b_x b !! key = Some v ↔
     ∃ i, keys !! i = Some key ∧ v = (length rooms + i)%nat ∧
          (∀ j, (i < j)%nat → keys !! j ≠ Some key)) ∧
  constraints m =
    assignment_constraints (b_x b) students rooms room_positions ++
    seat_constraints (b_x b) (b_y b) students rooms room_positions ++
    take (Z.to_nat MAX_SEPARATION_CONSTRAINTS) candidates ∧
  b_separation_count b = Z.of_nat (length candidates) `min` MAX_SEPARATION_CONSTRAINTS ∧
  objective m = Sum (seq 0 (length rooms)).
Proof.
  intros room_positions b m keys groups candidates.
  subst candidates groups. rewrite <-exam_groups_eq.
  split_and!.
  - apply build_model_num_vars.
  - apply build_model_variable_count.
  - apply build_model_y.
  - apply build_model_x.
  - apply build_model_constraints.
  - apply build_model_separation_count.
  - apply build_model_objective.
Qed.

(** C5 fails as stated: with the hash map yielding the most recently
    inserted key first, the group of exam "b" (students 2 and 3) is visited
    before the group of exam "a" (students 0 and 1), and the emitted model
    differs from the one emitted when exams are visited in ascending order
    of first appearance. *)
Lemma exam_order_follows_hash_map :
  exam_groups last_inserted_first students_O = [("b", [2; 3]); ("a", [0; 1])] ∧
  exam_groups first_inserted_first students_O = [("a", [0; 1]); ("b", [2; 3])] ∧
  constraints (model_of last_inserted_first students_O rooms_O ∅) ≠
    constraints (model_of first_inserted_first students_O rooms_O ∅).
Proof.
  split_and!; [by vm_compute..|].
  intros Heq.
  apply (f_equal (λ l : list Constraint, l !! 24%nat)) in Heq.
  vm_compute in Heq. discriminate Heq.
Qed.

(** ** The cap and the diagnostics (C4) *)

(** C4, as the code has it. When the separation candidates reach the cap,
    the output of [solve] consists of the header lines, the variable count,
    the line "Added 50000 separation constraints", the solver banner, the
    elapsed time and the status, and (with a solution) the number of
    assignments — no line is
    specific to the cap having been hit. The model handed to the solver
    holds the first 50 000 candidates, and the returned vector is the one
    extracted from the solver's response to that model. *)
Theorem cap_hit_reported_by_count_only solver umap_order solve_time students rooms restrictions timeout :
  let b := built umap_order students rooms restrictions in
  let m := model_of umap_order students rooms restrictions in
  let response := solver (solver_parameters timeout) m in
  let o := solve solver umap_order solve_time students rooms restrictions timeout in
  rejected students rooms = false →
  MAX_SEPARATION_CONSTRAINTS ≤
    Z.of_nat (length (offered umap_order students rooms restrictions)) →
  cout o =
    header_lines students rooms ++
    ["Created " +:+ pretty (b_variable_count b) +:+ " variables";
     "Added 50000 separation constraints";
     "Starting C++ solver...";
     "C++ solver completed in " +:+ pretty solve_time +:+ "ms";
     "Status: " +:+ pretty (status_code (status response))] ++
    match status response with
    | OPTIMAL | FEASIBLE =>
        ["C++ solver assigned " +:+ pretty (length (assignments o)) +:+ " students"]
    | _ => []
    end ∧
  solver_call o = Some (solver_parameters timeout, m) ∧
  constraints m =
    assignment_constraints (b_x b) students rooms (precompute_positions rooms).1 ++
    seat_constraints (b_x b) (b_y b) students rooms (precompute_positions rooms).1 ++
    take (Z.to_nat MAX_SEPARATION_CONSTRAINTS)
      (offered umap_order students rooms restrictions) ∧
  assignments o =
    match status response with
    | OPTIMAL | FEASIBLE =>
        extract_assignments (b_x b) response students rooms (precompute_positions rooms).1
    | _ => []
    end.
Proof.
  intros b m response o Hrej Hcap. subst o.
  rewrite solve_accepted by done. simpl. fold b m response.
  assert (b_separation_count b = 50000) as ->.
  { subst b. unfold built. rewrite build_model_separation_count.
    unfold offered, built, MAX_SEPARATION_CONSTRAINTS in *. lia. }
  split_and!.
  - by destruct (status response).
  - done.
  - apply build_model_constraints.
  - done.
Qed.

Lemma satisfies_foldl val m :
  satisfies val m = foldl (λ ok c, ok && holds val c) true (constraints m).
Proof.
  unfold satisfies.
  enough (∀ cs ok, foldl (λ ok c, ok && holds val c) ok cs = ok && forallb (holds val) cs)
    as H by (by rewrite H).
  induction cs as [|c cs IH]; intros ok; simpl.
  - by rewrite andb_true_r.
  - by rewrite IH, andb_assoc.
Qed.

Lemma checked_run_accepted r solver umap_order solve_time students rooms restrictions timeout :
  rejected students rooms = false →
  checked_run r (solve solver umap_order solve_time students rooms restrictions timeout) =
    (cout (solve solver umap_order solve_time students rooms restrictions timeout),
     satisfies (solution r) (model_of umap_order students rooms restrictions)).
Proof.
  intros Hrej. unfold checked_run. rewrite satisfies_foldl.
  by rewrite solve_accepted.
Qed.

(** The two large inputs, evaluated once each. *)
Lemma capA_offered :
  Z.of_nat (length (offered first_inserted_first students_capA rooms_cap ∅)) = 61250.
Proof. vm_cast_no_check (eq_refl 61250). Qed.

Lemma capB_offered :
  Z.of_nat (length (offered first_inserted_first students_capB rooms_cap ∅)) = 50000.
Proof. vm_cast_no_check (eq_refl 50000). Qed.

Lemma capA_run :
  checked_run response_cap
    (solve (λ _ _, response_cap) first_inserted_first 15 students_capA rooms_cap ∅ 120) =
    (["Starting C++ solver with 50 students and 1 rooms";
      "Room R1: 51 positions";
      "Total capacity: 51, Students: 50";
      "Created 2550 variables";
      "Added 50000 separation constraints";
      "Starting C++ solver...";
      "C++ solver completed in 15ms";
      "Status: 2";
      "C++ solver assigned 50 students"], true).
Proof. vm_compute. reflexivity. Qed.

Lemma capB_run :
  cout (solve (λ _ _, response_cap) first_inserted_first 15 students_capB rooms_cap ∅ 120) =
    ["Starting C++ solver with 50 students and 1 rooms";
     "Room R1: 51 positions";
     "Total capacity: 51, Students: 50";
     "Created 2550 variables";
     "Added 50000 separation constraints";
     "Starting C++ solver...";
     "C++ solver completed in 15ms";
     "Status: 2";
     "C++ solver assigned 50 students"].
Proof. vm_compute. reflexivity. Qed.

(** Fifty students of one exam in a row of 51 seats. *)
Lemma cap_hit_input_capA :
  rejected students_capA rooms_cap = false ∧
  MAX_SEPARATION_CONSTRAINTS ≤
    Z.of_nat (length (offered first_inserted_first students_capA rooms_cap ∅)) ∧
  solver_call (solve (λ _ _, response_cap) first_inserted_first 15
                 students_capA rooms_cap ∅ 120) =
    Some (solver_parameters 120, model_of first_inserted_first students_capA rooms_cap ∅).
Proof.
  assert (rejected students_capA rooms_cap = false) as H1 by (vm_compute; reflexivity).
  assert (MAX_SEPARATION_CONSTRAINTS ≤
            Z.of_nat (length (offered first_inserted_first students_capA rooms_cap ∅))) as H2
    by (rewrite capA_offered; vm_compute; discriminate).
  split; [exact H1|]. split; [exact H2|].
  exact (proj1 (proj2 (cap_hit_reported_by_count_only (λ _ _, response_cap)
           first_inserted_first 15 students_capA rooms_cap ∅ 120 H1 H2))).
Defined.

(** C4 fails as stated. With 50 students of one exam the cap is hit and
    11 250 candidates are left out; the response is sound for the built
    model and [solve] returns its 50 assignments, but the output is the
    nine lines below, none of which flags the cap. The same nine lines are
    printed for the second input, whose 50 000 candidates are all emitted. *)
Lemma cap_hit_leaves_no_trace :
  Z.of_nat (length (offered first_inserted_first students_capA rooms_cap ∅)) = 61250 ∧
  sound_response (model_of first_inserted_first students_capA rooms_cap ∅) response_cap ∧
  cout (solve (λ _ _, response_cap) first_inserted_first 15 students_capA rooms_cap ∅ 120) =
    ["Starting C++ solver with 50 students and 1 rooms";
     "Room R1: 51 positions";
     "Total capacity: 51, Students: 50";
     "Created 2550 variables";
     "Added 50000 separation constraints";
     "Starting C++ solver...";
     "C++ solver completed in 15ms";
     "Status: 2";
     "C++ solver assigned 50 students"] ∧
  Z.of_nat (length (offered first_inserted_first students_capB rooms_cap ∅)) = 50000 ∧
  cout (solve (λ _ _, response_cap) first_inserted_first 15 students_capB rooms_cap ∅ 120) =
    ["Starting C++ solver with 50 students and 1 rooms";
     "Room R1: 51 positions";
     "Total capacity: 51, Students: 50";
     "Created 2550 variables";
     "Added 50000 separation constraints";
     "Starting C++ solver...";
     "C++ solver completed in 15ms";
     "Status: 2";
     "C++ solver assigned 50 students"].
Proof.
  pose proof capA_run as Hrun.
  rewrite checked_run_accepted in Hrun by (vm_compute; reflexivity).
  apply pair_equal_spec in Hrun as [Hcout Hsat].
  split_and!.
  - exact capA_offered.
  - split; [intros _; exact Hsat|intros [=]].
  - exact Hcout.
  - exact capB_offered.
  - exact capB_run.
Qed.

(** * Further properties of the solver *)


Lemma adjacent_positions_of room p q :
  p ∈ positions_of room → q ∈ positions_of room → is_adjacent p q = true →
  (p.1 = q.1 ∧ Room.skip_cols room = false ∧ 2 ≤ Room.cols room) ∨
  (p.2 = q.2 ∧ Room.skip_rows room = false ∧ 2 ≤ Room.rows room).
Proof.
  intros Hp%elem_of_positions_of Hq%elem_of_positions_of.
  unfold is_adjacent, usable in *. rewrite Z.eqb_eq. intros Hadj.
  destruct Hp as (? & Hpr & Hpc), Hq as (? & Hqr & Hqc).
  destruct (Room.skip_rows room), (Room.skip_cols room);
    destruct Hpr as [?|Hpr], Hpc as [?|Hpc], Hqr as [?|Hqr], Hqc as [?|Hqc];
    try discriminate; Z.to_euclidean_division_equations; lia.
Qed.

(** X2. Two adjacent usable positions of a room lie in different rows only
    if the room does not skip rows, and in different columns only if it does
    not skip columns; a room that skips both has no two adjacent positions. *)
Theorem skipped_lines_separate_seats room p q :
  p ∈ positions_of room → q ∈ positions_of room → is_adjacent p q = true →
  (Room.skip_rows room = false ∨ p.1 = q.1) ∧
  (Room.skip_cols room = false ∨ p.2 = q.2) ∧
  Room.skip_rows room && Room.skip_cols room = false.
Proof.
  intros Hp Hq Hadj.
  destruct (adjacent_positions_of room p q Hp Hq Hadj) as [(? & -> & ?)|(? & -> & ?)].
  - split_and!; [|by left|by rewrite andb_false_r]. by right.
  - split_and!; [by left| |done]. by right.
Qed.

Lemma skipped_lines_separate_seats_room_A :
  is_adjacent (0, 0) (0, 1) = true ∧
  Room.skip_cols (Room.mk "R1" 1 3 false false) = false.
Proof.
  assert ((0, 0) ∈ positions_of (Room.mk "R1" 1 3 false false)) as Hp
    by (vm_compute; left).
  assert ((0, 1) ∈ positions_of (Room.mk "R1" 1 3 false false)) as Hq
    by (vm_compute; right; left).
  assert (is_adjacent (0, 0) (0, 1) = true) as Hadj by reflexivity.
  split; [exact Hadj|].
  destruct (skipped_lines_separate_seats _ _ _ Hp Hq Hadj) as (_ & [H|H] & _);
    [exact H|discriminate H].
Defined.

Lemma elem_of_ordered_pairs {A} (l : list A) (pp : A * A) :
  pp ∈ ordered_pairs l → pp.1 ∈ l ∧ pp.2 ∈ l.
Proof.
  induction l as [|a l IH]; simpl; [by intros ?%elem_of_nil|].
  rewrite elem_of_app. intros [(b & -> & Hb)%list_elem_of_fmap|[??]%IH]; simpl.
  - split; [left|by right].
  - split; by right.
Qed.

(** X3. When every room skips rows or has at most one row, and skips columns
    or has at most one column, the separation loop finds no candidate and the
    count of separation constraints is 0. *)
Theorem no_separation_without_adjacent_seats umap_order students rooms restrictions :
  Forall (λ room, (Room.skip_rows room = true ∨ Room.rows room ≤ 1) ∧
                  (Room.skip_cols room = true ∨ Room.cols room ≤ 1)) rooms →
  offered umap_order students rooms restrictions = [] ∧
  b_separation_count (built umap_order students rooms restrictions) = 0.
Proof.
  intros Hrooms.
  assert (offered umap_order students rooms restrictions = []) as Hnone.
  { unfold offered, separation_candidates.
    apply bind_all_nil. intros g _. destruct (_ <? _)%nat; [done|].
    apply bind_all_nil. intros ki _. apply bind_all_nil. intros pp Hpp.
    destruct (is_adjacent pp.1 pp.2) eqn:Hadj; [exfalso|done].
    apply elem_of_ordered_pairs in Hpp as [Hp Hq].
    rewrite precomputed_lookup in Hp, Hq.
    destruct (rooms !! ki) as [room|] eqn:Hroom; [|by apply elem_of_nil in Hp].
    rewrite Forall_forall in Hrooms.
    destruct (Hrooms room) as [Hr Hc]; [by eapply list_elem_of_lookup_2|].
    destruct (adjacent_positions_of room _ _ Hp Hq Hadj) as [(_ & ? & ?)|(_ & ? & ?)].
    - destruct Hc; [congruence|lia].
    - destruct Hr; [congruence|lia]. }
  split; [done|]. unfold built. rewrite build_model_separation_count.
  unfold offered, built in Hnone. rewrite Hnone. done.
Qed.

Lemma no_separation_without_adjacent_seats_rooms_S :
  length (positions_of (Room.mk "R1" 3 3 true true)) = 4%nat ∧
  b_separation_count (built first_inserted_first students_A rooms_S ∅) = 0.
Proof.
  split; [reflexivity|].
  apply (no_separation_without_adjacent_seats first_inserted_first students_A rooms_S ∅).
  repeat constructor.
Defined.

Lemma kept_lines_succ (i : nat) skip :
  kept_lines (Z.of_nat (S i)) skip =
    (kept_lines (Z.of_nat i) skip +
     if skip && negb (Z.rem (Z.of_nat i) 2 =? 0)%Z then 0 else 1)%nat.
Proof.
  unfold kept_lines. rewrite Z.rem_mod_nonneg by lia.
  destruct skip; simpl; [|lia].
  destruct (Z.eqb_spec (Z.of_nat i `mod` 2) 0); simpl;
    Z.to_euclidean_division_equations; lia.
Qed.

Lemma length_skipping_loop {B} (n : Z) (skip : bool) (g : Z → list B) (k : nat) :
  (∀ v, length (g v) = k) →
  length (int_range n ≫= λ v, if skip && negb (Z.rem v 2 =? 0) then [] else g v) =
    (kept_lines n skip * k)%nat.
Proof.
  intros Hg. unfold int_range.
  destruct (Z.le_gt_cases n 0) as [Hn|Hn].
  { rewrite seqZ_nil by done. unfold kept_lines.
    replace (Z.to_nat _) with 0%nat; [done|].
    destruct skip; Z.to_euclidean_division_equations; lia. }
  rewrite <-(Z2Nat.id n) by lia. induction (Z.to_nat n) as [|i IH]; [by destruct skip|].
  rewrite seqZ_S, bind_app, length_app, IH, kept_lines_succ. simpl.
  rewrite app_nil_r.
  destruct (skip && _); simpl; rewrite ?Hg; lia.
Qed.

(** X4. [precompute_positions] keeps, of a room, the product of the kept
    rows and the kept columns: all of them, or every other one starting with
    the first when the room skips them; none when the dimension is not
    positive. *)
Theorem positions_count room :
  length (positions_of room) =
    (kept_lines (Room.rows room) (Room.skip_rows room) *
     kept_lines (Room.cols room) (Room.skip_cols room))%nat.
Proof.
  unfold positions_of. apply length_skipping_loop. intros r.
  rewrite (length_skipping_loop _ _ _ 1); [lia|done].
Qed.

(** X5. Every returned assignment names a student and a room of the input,
    and when the student's exam has a restriction list the room's id is in
    it, whatever the solver answered. *)
Theorem assignments_respect_restrictions
    solver umap_order solve_time students rooms restrictions timeout a :
  a ∈ assignments (solve solver umap_order solve_time students rooms restrictions timeout) →
  ∃ student room,
    student ∈ students ∧ room ∈ rooms ∧
    Student.id student = Assignment.student_id a ∧
    Room.id room = Assignment.room_id a ∧
    ∀ allowed, restrictions !! Student.exam student = Some allowed →
               Assignment.room_id a ∈ allowed.
Proof.
  intros (student0 & ki & _ & Hex)%returned_assignment_origin.
  apply extracted_for_Some in Hex as (room & v & Hroom & Hsid & Hrid & _ & Hv & _).
  destruct (proj1 (decision_var_exists umap_order students rooms restrictions
                     (precompute_positions rooms).1 (Student.id student0) ki
                     (Assignment.row a, Assignment.col a)))
    as (student & Hin & Hid & _ & Hallowed & _); [by eexists|].
  exists student, room. split_and!; try done.
  - by eapply list_elem_of_lookup_2.
  - congruence.
  - intros allowed Hlist. unfold room_allowed in Hallowed. rewrite Hlist in Hallowed.
    rewrite (list_lookup_total_correct _ _ _ Hroom) in Hallowed.
    apply bool_decide_eq_true in Hallowed. congruence.
Qed.

Lemma assignments_respect_restrictions_input_R :
  Assignment.mk 1 "R1" 0 0 ∈
    assignments (solve (λ _ _, response_R) first_inserted_first 15
                   students_R rooms_R restrictions_R 120) ∧
  ∃ student room,
    student ∈ students_R ∧ room ∈ rooms_R ∧
    Student.id student = 1 ∧ Room.id room = "R1" ∧
    ∀ allowed, restrictions_R !! Student.exam student = Some allowed → "R1" ∈ allowed.
Proof.
  assert (Assignment.mk 1 "R1" 0 0 ∈
    assignments (solve (λ _ _, response_R) first_inserted_first 15
                   students_R rooms_R restrictions_R 120)) as H1
    by (vm_compute; left).
  split; [exact H1|].
  exact (assignments_respect_restrictions (λ _ _, response_R) first_inserted_first 15
           students_R rooms_R restrictions_R 120 _ H1).
Defined.

(** ** Meaning of the seat constraints *)

Lemma eval_Sum_app val vs ws :
  eval val (Sum (vs ++ ws)) = eval val (Sum vs) + eval val (Sum ws).
Proof.
  unfold eval. simpl. induction vs as [|v vs IH]; simpl; [done|]. rewrite IH. lia.
Qed.

Lemma eval_Sum_nonneg val vs : 0 ≤ eval val (Sum vs).
Proof.
  unfold eval. simpl. induction vs as [|v vs IH]; simpl; [done|].
  destruct (val v); simpl; lia.
Qed.

Lemma eval_Sum_elem val vs v : v ∈ vs → val v = true → 1 ≤ eval val (Sum vs).
Proof.
  intros (l1 & l2 & ->)%list_elem_of_split Hv.
  rewrite eval_Sum_app. change (v :: l2) with ([v] ++ l2). rewrite eval_Sum_app.
  pose proof (eval_Sum_nonneg val l1). pose proof (eval_Sum_nonneg val l2).
  unfold eval at 2. simpl. rewrite Hv. simpl. lia.
Qed.

(** Two different students whose variables for a seat are both true make the
    seat's sum at least two. *)
Lemma seat_sum_two val x students ki pos s1 s2 v1 v2 :
  s1 ∈ students → s2 ∈ students → s1 ≠ s2 →
  x !! var_key (Student.id s1) ki pos = Some v1 →
  x !! var_key (Student.id s2) ki pos = Some v2 →
  val v1 = true → val v2 = true →
  2 ≤ eval val (Sum (seat_vars x students ki pos)).
Proof.
  intros H1 H2 Hne Hv1 Hv2 Ht1 Ht2.
  assert (∀ s v l, s ∈ l → x !! var_key (Student.id s) ki pos = Some v → val v = true →
            1 ≤ eval val (Sum (seat_vars x l ki pos))) as Hone.
  { intros s v l Hs Hv Ht. apply (eval_Sum_elem val _ v); [|done].
    unfold seat_vars. apply list_elem_of_bind. exists s. split; [|done]. rewrite Hv. left. }
  induction students as [|s students IH]; [by apply elem_of_nil in H1|].
  unfold seat_vars. rewrite bind_cons, eval_Sum_app. fold (seat_vars x students ki pos).
  pose proof (eval_Sum_nonneg val (option_list (x !! var_key (Student.id s) ki pos))).
  apply elem_of_cons in H1 as [->|H1], H2 as [->|H2]; try done.
  - rewrite Hv1. specialize (Hone s2 v2 students H2 Hv2 Ht2).
    unfold eval at 1. simpl. rewrite Ht1. simpl. lia.
  - rewrite Hv2. specialize (Hone s1 v1 students H1 Hv1 Ht1).
    unfold eval at 1. simpl. rewrite Ht2. simpl. lia.
  - specialize (IH H1 H2). lia.
Qed.

Section satisfied.
Variable umap_order : list string → list string.
Variables (students : list Student.t) (rooms : list Room.t).
Variable restrictions : gmap string (list string).
Variable val : BoolVar → bool.
Hypothesis Hsat : satisfies val (model_of umap_order students rooms restrictions) = true.

Let x := b_x (built umap_order students rooms restrictions).

(** At most one of the students' variables of a seat is true. *)
Lemma seat_capacity_holds ki room pos :
  rooms !! ki = Some room → pos ∈ positions_of room →
  eval val (Sum (seat_vars x students ki pos)) ≤ 1.
Proof.
  intros Hroom Hpos.
  destruct (decide (seat_vars x students ki pos = [])) as [->|Hne]; [done|].
  assert (LessOrEqual (Sum (seat_vars x students ki pos)) (Const 1) ∈
            constraints (model_of umap_order students rooms restrictions)) as Hin.
  { unfold model_of, built. rewrite build_model_constraints.
    apply elem_of_app. right. apply elem_of_app. left.
    unfold seat_constraints. apply list_elem_of_bind. exists ki. split.
    - apply list_elem_of_bind. exists pos. split.
      + apply elem_of_app. right. rewrite bool_decide_eq_false_2 by done. left.
      + by rewrite precomputed_lookup, Hroom.
    - apply elem_of_seq. apply lookup_lt_Some in Hroom. lia. }
  apply (satisfies_elem _ _ _ Hsat) in Hin. simpl in Hin. by apply Z.leb_le in Hin.
Qed.

(** A true decision variable makes the usage variable of its room true. *)
Lemma room_link_holds student ki room pos v :
  student ∈ students → rooms !! ki = Some room → pos ∈ positions_of room →
  x !! var_key (Student.id student) ki pos = Some v → val v = true → val ki = true.
Proof.
  intros Hstudent Hroom Hpos Hv Htrue.
  assert (LessOrEqual (Var v) (Var ki) ∈
            constraints (model_of umap_order students rooms restrictions)) as Hin.
  { unfold model_of, built. rewrite build_model_constraints.
    apply elem_of_app. right. apply elem_of_app. left.
    unfold seat_constraints. apply list_elem_of_bind. exists ki.
    assert (ki < length rooms)%nat as Hki by by eapply lookup_lt_Some.
    split; [|apply elem_of_seq; lia].
    apply list_elem_of_bind. exists pos. split; [|by rewrite precomputed_lookup, Hroom].
    apply elem_of_app. left. rewrite build_model_y.
    rewrite lookup_total_seq_lt by done. simpl.
    apply list_elem_of_fmap. exists v. split; [done|].
    unfold seat_vars. apply list_elem_of_bind. exists student. split; [|done].
    unfold x, built in Hv. rewrite Hv. left. }
  apply (satisfies_elem _ _ _ Hsat) in Hin. simpl in Hin. apply Z.leb_le in Hin.
  unfold eval in Hin. simpl in Hin. rewrite Htrue in Hin.
  destruct (val ki); [done|simpl in Hin; lia].
Qed.
End satisfied.

Lemma NoDup_fmap_eq {A B} (f : A → B) (l : list A) a b :
  NoDup (f <$> l) → a ∈ l → b ∈ l → f a = f b → a = b.
Proof.
  intros Hnd (i & Hi)%list_elem_of_lookup_1 (j & Hj)%list_elem_of_lookup_1 Heq.
  assert (i = j) as ->; [|congruence].
  apply (NoDup_lookup _ _ _ (f a) Hnd); rewrite list_lookup_fmap.
  - by rewrite Hi.
  - rewrite Hj. simpl. by rewrite Heq.
Qed.

(** What a seat in the returned list says about the slot it came from. *)
Lemma slot_seat x r rooms student y :
  y ∈ seat_of <$> (room_indices rooms ≫= λ ki,
         option_list (extracted_for x r rooms (precompute_positions rooms).1 student ki)) →
  ∃ ki room v,
    rooms !! ki = Some room ∧ y.1.1 = Room.id room ∧
    (y.1.2, y.2) ∈ positions_of room ∧
    x !! var_key (Student.id student) ki (y.1.2, y.2) = Some v ∧ solution r v = true.
Proof.
  intros (a & -> & (ki & Ha & _)%list_elem_of_bind)%list_elem_of_fmap.
  destruct (extracted_for _ _ _ _ _ _) as [a'|] eqn:He; [|by apply elem_of_nil in Ha].
  apply list_elem_of_singleton in Ha as ->.
  apply extracted_for_Some in He as (room & v & ? & _ & ? & ?%elem_of_positions_of & ? & ? & _).
  exists ki, room, v. done.
Qed.

(** X6. With distinct student ids and distinct room ids, a response that
    satisfies the built model never yields two assignments of the same seat
    (room id, row, column). *)
Theorem no_seat_shared solver umap_order solve_time students rooms restrictions timeout :
  let response := solver (solver_parameters timeout)
                    (model_of umap_order students rooms restrictions) in
  NoDup (Student.id <$> students) →
  NoDup (Room.id <$> rooms) →
  satisfies (solution response) (model_of umap_order students rooms restrictions) = true →
  NoDup (seat_of <$>
           assignments (solve solver umap_order solve_time students rooms restrictions timeout)).
Proof.
  intros response Hids Hrids Hsat.
  destruct (rejected students rooms) eqn:Hrej.
  { rewrite solve_rejected by done. constructor. }
  rewrite solve_accepted by done. simpl. fold response.
  assert (∀ k1 k2 r1 r2, rooms !! k1 = Some r1 → rooms !! k2 = Some r2 →
            Room.id r1 = Room.id r2 → k1 = k2) as Hroom_inj.
  { intros k1 k2 r1 r2 H1 H2 Heq.
    apply (NoDup_lookup _ _ _ (Room.id r1) Hrids); rewrite list_lookup_fmap.
    - by rewrite H1.
    - rewrite H2. simpl. by rewrite Heq. }
  enough (NoDup (seat_of <$>
            extract_assignments (b_x (built umap_order students rooms restrictions))
              response students rooms (precompute_positions rooms).1)) as Hgoal.
  { destruct (status response); first [exact Hgoal|constructor]. }
  rewrite extract_assignments_eq, fmap_bind_comm. apply NoDup_bind.
  - intros s1 s2 y Hs1 Hs2
      (k1 & r1 & v1 & Hr1 & Hy1 & Hp1 & Hv1 & Ht1)%slot_seat
      (k2 & r2 & v2 & Hr2 & Hy2 & _ & Hv2 & Ht2)%slot_seat.
    assert (k1 = k2) as <- by (eapply Hroom_inj; [done..|congruence]).
    destruct (decide (Student.id s1 = Student.id s2)) as [Heq|Hne].
    { by eapply (NoDup_fmap_eq Student.id). }
    exfalso.
    pose proof (seat_capacity_holds umap_order students rooms restrictions _ Hsat
                  k1 r1 _ Hr1 Hp1) as Hcap.
    pose proof (seat_sum_two (solution response) _ students k1 _ s1 s2 v1 v2
                  Hs1 Hs2 ltac:(congruence) Hv1 Hv2 Ht1 Ht2) as Htwo.
    lia.
  - intros student _. rewrite fmap_bind_comm. apply NoDup_bind.
    + intros k1 k2 y _ _ (a1 & -> & Ha1)%list_elem_of_fmap (a2 & Hseat & Ha2)%list_elem_of_fmap.
      destruct (extracted_for _ _ _ _ _ k1) as [a|] eqn:He1; [|by apply elem_of_nil in Ha1].
      destruct (extracted_for _ _ _ _ _ k2) as [a'|] eqn:He2; [|by apply elem_of_nil in Ha2].
      apply list_elem_of_singleton in Ha1 as ->. apply list_elem_of_singleton in Ha2 as ->.
      apply extracted_for_Some in He1 as (r1 & ? & Hr1 & _ & Hid1 & _).
      apply extracted_for_Some in He2 as (r2 & ? & Hr2 & _ & Hid2 & _).
      eapply Hroom_inj; [done..|]. unfold seat_of in Hseat. congruence.
    + intros ki _. destruct (extracted_for _ _ _ _ _ _); simpl.
      * apply NoDup_singleton.
      * constructor.
    + apply NoDup_seq.
  - by eapply NoDup_fmap_1.
Qed.

Lemma no_seat_shared_scenario_A :
  NoDup (Student.id <$> students_A) ∧
  NoDup (Room.id <$> rooms_A) ∧
  satisfies (solution response_A) (model_of first_inserted_first students_A rooms_A ∅) = true ∧
  NoDup (seat_of <$>
           assignments (solve (λ _ _, response_A) first_inserted_first 15
                          students_A rooms_A ∅ 120)).
Proof.
  assert (NoDup (Student.id <$> students_A)) as H1 by decide_by_compute.
  assert (NoDup (Room.id <$> rooms_A)) as H2 by decide_by_compute.
  assert (satisfies (solution response_A)
            (model_of first_inserted_first students_A rooms_A ∅) = true) as H3
    by (vm_compute; reflexivity).
  split; [exact H1|]. split; [exact H2|]. split; [exact H3|].
  exact (no_seat_shared (λ _ _, response_A) first_inserted_first 15
           students_A rooms_A ∅ 120 H1 H2 H3).
Defined.

(** ** One seat per student *)

Lemma has_true_var_sum x r room_positions sid ki :
  has_true_var x r room_positions sid ki = true ↔
    0 < eval (solution r)
          (Sum (room_positions !!! ki ≫= λ pos, option_list (x !! var_key sid ki pos))).
Proof.
  unfold has_true_var. induction (room_positions !!! ki) as [|pos positions IH].
  - split; [done|]. unfold eval. simpl. lia.
  - cbn [existsb]. rewrite bind_cons, eval_Sum_app, orb_true_iff, IH.
    set (rest := eval (solution r)
                   (Sum (positions ≫= λ pos, option_list (x !! var_key sid ki pos)))).
    assert (0 ≤ rest) by apply eval_Sum_nonneg.
    destruct (x !! var_key sid ki pos) as [v|].
    + change (eval (solution r) (Sum (option_list (Some v))))
        with (Z.b2z (solution r v) + 0).
      destruct (solution r v); simpl; [split; [lia|by left]|].
      split; [intros [?|?]; [done|lia]|]. intros ?. right. lia.
    + change (eval (solution r) (Sum (option_list None))) with 0.
      split; [intros [?|?]; [done|lia]|]. intros ?. right. lia.
Qed.

(** Blocks of non-negative weight whose total is one: exactly one block has
    positive weight. *)
Lemma one_positive_block {A} val (B : A → list BoolVar) (l : list A) :
  eval val (Sum (l ≫= B)) = 1 →
  length (filter (λ k, 0 < eval val (Sum (B k))) l) = 1%nat.
Proof.
  enough (Z.of_nat (length (filter (λ k, 0 < eval val (Sum (B k))) l))
            ≤ eval val (Sum (l ≫= B)) ∧
          (0 < eval val (Sum (l ≫= B)) →
           filter (λ k, 0 < eval val (Sum (B k))) l ≠ [])) as [H1 H2].
  { intros Heq. rewrite Heq in H1, H2. specialize (H2 ltac:(lia)).
    destruct (filter _ l) as [|? [|??]]; simpl in *; [done..|lia]. }
  induction l as [|k l [IH1 IH2]].
  - split; [done|]. unfold eval. simpl. lia.
  - rewrite bind_cons, eval_Sum_app.
    pose proof (eval_Sum_nonneg val (B k)). pose proof (eval_Sum_nonneg val (l ≫= B)).
    destruct (decide (0 < eval val (Sum (B k)))).
    + rewrite filter_cons_True by done. simpl. split; [lia|done].
    + rewrite filter_cons_False by done. split; [lia|]. intros ?. apply IH2. lia.
Qed.

Lemma filter_bind {A B} (P : B → Prop) `{∀ b, Decision (P b)} (f : A → list B) (l : list A) :
  filter P (l ≫= f) = l ≫= λ a, filter P (f a).
Proof.
  induction l as [|a l IH]; [done|]. by rewrite !bind_cons, filter_app, IH.
Qed.

Lemma filter_all {A} (P : A → Prop) `{∀ a, Decision (P a)} (l : list A) :
  Forall P l → filter P l = l.
Proof.
  induction 1 as [|a l ?? IH]; [done|]. by rewrite filter_cons_True, IH.
Qed.

Lemma filter_none {A} (P : A → Prop) `{∀ a, Decision (P a)} (l : list A) :
  Forall (λ a, ¬ P a) l → filter P l = [].
Proof.
  induction 1 as [|a l ?? IH]; [done|]. by rewrite filter_cons_False.
Qed.

(** Under a satisfying response a student that has variables gets exactly
    one slot. *)
Lemma one_slot_per_student umap_order students rooms restrictions r student :
  satisfies (solution r) (model_of umap_order students rooms restrictions) = true →
  student ∈ students →
  student_vars (b_x (built umap_order students rooms restrictions)) rooms
    (precompute_positions rooms).1 (Student.id student) ≠ [] →
  length (room_indices rooms ≫= λ ki,
            option_list (extracted_for (b_x (built umap_order students rooms restrictions))
                           r rooms (precompute_positions rooms).1 student ki)) = 1%nat.
Proof.
  intros Hsat Hstudent Hvars. set (x := b_x (built umap_order students rooms restrictions)) in *.
  rewrite bind_option_list_length.
  rewrite (list_filter_iff _
    (λ ki, 0 < eval (solution r)
                 (Sum ((precompute_positions rooms).1 !!! ki ≫=
                         λ pos, option_list (x !! var_key (Student.id student) ki pos))))).
  - apply one_positive_block.
    assert (Equality (Sum (student_vars x rooms (precompute_positions rooms).1
                             (Student.id student))) (Const 1) ∈
            constraints (model_of umap_order students rooms restrictions)) as Hin.
    { unfold model_of, built. rewrite build_model_constraints.
      apply elem_of_app. left. unfold assignment_constraints.
      apply list_elem_of_bind. exists student. split; [|done].
      rewrite bool_decide_eq_false_2 by done. left. }
    apply (satisfies_elem _ _ _ Hsat) in Hin. simpl in Hin. by apply Z.eqb_eq in Hin.
  - intros ki. unfold extracted_for. rewrite fmap_is_Some, <-has_true_var_spec.
    apply has_true_var_sum.
Qed.

Lemma slots_carry_student_id x r rooms room_positions student :
  Forall (λ a, Assignment.student_id a = Student.id student)
    (room_indices rooms ≫= λ ki,
       option_list (extracted_for x r rooms room_positions student ki)).
Proof.
  apply Forall_forall. intros a (ki & Ha & _)%list_elem_of_bind.
  unfold extracted_for in Ha.
  destruct (first_true_position _ _ _ _ _); [|by apply elem_of_nil in Ha].
  by apply list_elem_of_singleton in Ha as ->.
Qed.

(** X7. With distinct student ids, a student that has a decision variable
    gets exactly one assignment when the input passes the capacity test and
    the response, of status OPTIMAL or FEASIBLE, satisfies the built model. *)
Theorem seated_exactly_once
    solver umap_order solve_time students rooms restrictions timeout student :
  let response := solver (solver_parameters timeout)
                    (model_of umap_order students rooms restrictions) in
  let x := b_x (built umap_order students rooms restrictions) in
  NoDup (Student.id <$> students) →
  student ∈ students →
  student_vars x rooms (precompute_positions rooms).1 (Student.id student) ≠ [] →
  rejected students rooms = false →
  status response = OPTIMAL ∨ status response = FEASIBLE →
  satisfies (solution response) (model_of umap_order students rooms restrictions) = true →
  ∃ a, filter (λ a, Assignment.student_id a = Student.id student)
         (assignments (solve solver umap_order solve_time students rooms restrictions timeout))
       = [a].
Proof.
  intros response x Hids Hstudent Hvars Hrej Hstatus Hsat.
  set (per := λ s : Student.t, room_indices rooms ≫= λ ki,
         option_list (extracted_for x response rooms (precompute_positions rooms).1 s ki)).
  assert (assignments (solve solver umap_order solve_time students rooms restrictions timeout)
          = students ≫= per) as ->.
  { rewrite solve_accepted by done. simpl. fold response.
    destruct Hstatus as [-> | ->]; apply extract_assignments_eq. }
  assert (∀ s, Forall (λ a, Assignment.student_id a = Student.id s) (per s)) as Hper
    by (intros s; apply slots_carry_student_id).
  assert (length (per student) = 1%nat) as Hone
    by (by apply one_slot_per_student).
  rewrite filter_bind.
  apply list_elem_of_split in Hstudent as (l1 & l2 & ->).
  rewrite fmap_app, fmap_cons in Hids.
  apply NoDup_app in Hids as (_ & Hl1 & [Hl2 _]%NoDup_cons).
  assert (∀ l : list Student.t,
    (∀ s, s ∈ l → Student.id s ≠ Student.id student) →
    (l ≫= λ s, filter (λ a, Assignment.student_id a = Student.id student) (per s)) = [])
    as Hother.
  { intros l Hl. apply bind_all_nil. intros s Hs. apply filter_none.
    eapply Forall_impl; [apply Hper|]. simpl. intros a -> . by apply Hl. }
  rewrite bind_app, bind_cons, !Hother.
  - rewrite (filter_all _ _ (Hper student)), app_nil_r. simpl.
    destruct (per student) as [|a [|??]]; try done. by exists a.
  - intros s Hs Heq. apply Hl2. rewrite <-Heq. by apply list_elem_of_fmap_2.
  - intros s Hs Heq. apply (Hl1 (Student.id s)); [by apply list_elem_of_fmap_2|].
    rewrite Heq. left.
Qed.

Lemma seated_exactly_once_scenario_A :
  NoDup (Student.id <$> students_A) ∧
  Student.mk 1 "math" ∈ students_A ∧
  student_vars (b_x (built first_inserted_first students_A rooms_A ∅)) rooms_A
    (precompute_positions rooms_A).1 1 ≠ [] ∧
  rejected students_A rooms_A = false ∧
  (status response_A = OPTIMAL ∨ status response_A = FEASIBLE) ∧
  satisfies (solution response_A) (model_of first_inserted_first students_A rooms_A ∅) = true ∧
  ∃ a, filter (λ a, Assignment.student_id a = 1)
         (assignments (solve (λ _ _, response_A) first_inserted_first 15
                         students_A rooms_A ∅ 120)) = [a].
Proof.
  assert (NoDup (Student.id <$> students_A)) as H1 by decide_by_compute.
  assert (Student.mk 1 "math" ∈ students_A) as H2 by (right; left).
  assert (student_vars (b_x (built first_inserted_first students_A rooms_A ∅)) rooms_A
            (precompute_positions rooms_A).1 1 ≠ []) as H3 by (vm_compute; discriminate).
  assert (rejected students_A rooms_A = false) as H4 by (vm_compute; reflexivity).
  assert (status response_A = OPTIMAL ∨ status response_A = FEASIBLE) as H5
    by (left; reflexivity).
  assert (satisfies (solution response_A)
            (model_of first_inserted_first students_A rooms_A ∅) = true) as H6
    by (vm_compute; reflexivity).
  split; [exact H1|]. split; [exact H2|]. split; [exact H3|]. split; [exact H4|].
  split; [exact H5|]. split; [exact H6|].
  exact (seated_exactly_once (λ _ _, response_A) first_inserted_first 15
           students_A rooms_A ∅ 120 (Student.mk 1 "math") H1 H2 H3 H4 H5 H6).
Defined.

(** X8. Under a response that satisfies the built model, the room of every
    returned assignment has its usage variable [y[ki]] set, and the objective
    (the number of used rooms) is then at least 1. *)
Theorem used_rooms_are_marked
    solver umap_order solve_time students rooms restrictions timeout a :
  let m := model_of umap_order students rooms restrictions in
  let response := solver (solver_parameters timeout) m in
  satisfies (solution response) m = true →
  a ∈ assignments (solve solver umap_order solve_time students rooms restrictions timeout) →
  (∃ ki room y_ki,
     rooms !! ki = Some room ∧ Room.id room = Assignment.room_id a ∧
     b_y (built umap_order students rooms restrictions) !! ki = Some y_ki ∧
     solution response y_ki = true) ∧
  1 ≤ eval (solution response) (objective m).
Proof.
  intros m response Hsat (student & ki & Hstudent & Hex)%returned_assignment_origin.
  apply extracted_for_Some in Hex
    as (room & v & Hroom & _ & Hrid & Hpos%elem_of_positions_of & Hv & Htrue & _).
  assert (ki < length rooms)%nat as Hki by by eapply lookup_lt_Some.
  pose proof (room_link_holds umap_order students rooms restrictions _ Hsat
                student ki room _ v Hstudent Hroom Hpos Hv Htrue) as Hy.
  split.
  - exists ki, room, ki. split_and!; try done.
    unfold built. rewrite build_model_y. by apply lookup_seq_lt.
  - subst m. unfold model_of, built. rewrite build_model_objective.
    apply (eval_Sum_elem _ _ ki); [|done]. apply elem_of_seq. lia.
Qed.

Lemma used_rooms_are_marked_scenario_A :
  satisfies (solution response_A) (model_of first_inserted_first students_A rooms_A ∅) = true ∧
  Assignment.mk 0 "R1" 0 1 ∈
    assignments (solve (λ _ _, response_A) first_inserted_first 15 students_A rooms_A ∅ 120) ∧
  1 ≤ eval (solution response_A) (objective (model_of first_inserted_first students_A rooms_A ∅)).
Proof.
  assert (satisfies (solution response_A)
            (model_of first_inserted_first students_A rooms_A ∅) = true) as H1
    by (vm_compute; reflexivity).
  assert (Assignment.mk 0 "R1" 0 1 ∈
    assignments (solve (λ _ _, response_A) first_inserted_first 15 students_A rooms_A ∅ 120))
    as H2 by (vm_compute; left).
  split; [exact H1|]. split; [exact H2|].
  exact (proj2 (used_rooms_are_marked (λ _ _, response_A) first_inserted_first 15
                  students_A rooms_A ∅ 120 _ H1 H2)).
Defined.

Lemma ordered_pairs_short {A} (l : list A) : (length l < 2)%nat → ordered_pairs l = [].
Proof. destruct l as [|a [|b l]]; simpl; [done..|lia]. Qed.

(** X9. When the cap is not exceeded, a valuation that satisfies the built
    model never sets both [x[s1, ki, p1]] and [x[s2, ki, p2]] for two students
    [s1] before [s2] of one exam group and two adjacent positions [p1] before
    [p2] of one room. *)
Theorem separation_forward_pairs
    umap_order students rooms restrictions val g ss ki pp v1 v2 :
  let x := b_x (built umap_order students rooms restrictions) in
  satisfies val (model_of umap_order students rooms restrictions) = true →
  Z.of_nat (length (offered umap_order students rooms restrictions))
    ≤ MAX_SEPARATION_CONSTRAINTS →
  g ∈ exam_groups umap_order students →
  ss ∈ ordered_pairs g.2 →
  (ki < length rooms)%nat →
  pp ∈ ordered_pairs ((precompute_positions rooms).1 !!! ki) →
  is_adjacent pp.1 pp.2 = true →
  x !! var_key ss.1 ki pp.1 = Some v1 →
  x !! var_key ss.2 ki pp.2 = Some v2 →
  val v1 && val v2 = false.
Proof.
  intros x Hsat Hcap Hg Hss Hki Hpp Hadj Hv1 Hv2.
  assert (LessOrEqual (Sum [v1; v2]) (Const 1) ∈
            constraints (model_of umap_order students rooms restrictions)) as Hin.
  { unfold model_of, built. rewrite build_model_constraints.
    apply elem_of_app. right. apply elem_of_app. right.
    rewrite take_ge by (unfold offered, built in Hcap; lia).
    unfold separation_candidates. apply list_elem_of_bind. exists g. split; [|done].
    destruct (length g.2 <? 2)%nat eqn:Hlen.
    { apply Nat.ltb_lt in Hlen. rewrite ordered_pairs_short in Hss by done.
      by apply elem_of_nil in Hss. }
    apply list_elem_of_bind. exists ki. split; [|apply elem_of_seq; lia].
    apply list_elem_of_bind. exists pp. split; [|done]. rewrite Hadj.
    apply list_elem_of_bind. exists ss. split; [|done].
    unfold x, built in Hv1, Hv2. rewrite Hv1, Hv2. left. }
  apply (satisfies_elem _ _ _ Hsat) in Hin. simpl in Hin. apply Z.leb_le in Hin.
  unfold eval in Hin. simpl in Hin. destruct (val v1), (val v2); simpl in *; try done; lia.
Qed.

Lemma separation_forward_pairs_scenario_A :
  satisfies (solution response_A) (model_of first_inserted_first students_A rooms_A ∅) = true ∧
  Z.of_nat (length (offered first_inserted_first students_A rooms_A ∅))
    ≤ MAX_SEPARATION_CONSTRAINTS ∧
  solution response_A 1%nat && solution response_A 5%nat = false.
Proof.
  assert (satisfies (solution response_A)
            (model_of first_inserted_first students_A rooms_A ∅) = true) as H1
    by (vm_compute; reflexivity).
  assert (Z.of_nat (length (offered first_inserted_first students_A rooms_A ∅))
            ≤ MAX_SEPARATION_CONSTRAINTS) as H2 by (vm_compute; discriminate).
  split; [exact H1|]. split; [exact H2|].
  refine (separation_forward_pairs first_inserted_first students_A rooms_A ∅
            (solution response_A) ("math", [0; 1]) (0, 1) 0%nat ((0, 0), (0, 1)) 1%nat 5%nat
            H1 H2 _ _ _ _ _ _ _).
  - vm_compute. left.
  - vm_compute. left.
  - vm_compute. lia.
  - vm_compute. left.
  - reflexivity.
  - vm_compute. reflexivity.
  - vm_compute. reflexivity.
Defined.


(** X11. The string key of a decision variable determines the student id,
    the room index and the position it was made from. *)
Theorem var_key_unambiguous sid ki pos sid' ki' pos' :
  var_key sid ki pos = var_key sid' ki' pos' ↔ (sid, ki, pos) = (sid', ki', pos').
Proof.
  split; [|by intros [= -> -> ->]].
  by intros (-> & -> & ->)%var_key_inj.
Qed.

(** X12. The exam map built by [solve] has an entry exactly for the exams
    some student takes; the entry lists the ids of the exam's students in
    input order. *)
Theorem exam_to_students_groups students e :
  exam_to_students students !! e =
    if decide (exam_students students e = []) then None
    else Some (exam_students students e).
Proof.
  induction students as [|student students IH] using rev_ind; [done|].
  pose proof (exam_to_students_lookup students (Student.exam student)) as Htotal.
  unfold exam_to_students, exam_students in *.
  rewrite foldl_snoc, filter_app, fmap_app.
  destruct (decide (Student.exam student = e)) as [<-|Hne].
  - clear IH. rewrite lookup_insert_eq, Htotal, filter_cons_True by done.
    rewrite filter_nil. csimpl. case_decide as Hnil; [|done].
    by apply app_eq_nil in Hnil as [_ ?].
  - rewrite lookup_insert_ne, IH, filter_cons_False by done.
    rewrite filter_nil, fmap_nil. by rewrite !app_nil_r.
Qed.

Lemma x_range umap_order students rooms restrictions room_positions key v :
  b_x (build_model umap_order students rooms restrictions room_positions) !! key = Some v →
  (length rooms ≤ v <
     num_vars (CpModelBuilder.Build
                 (b_model (build_model umap_order students rooms restrictions room_positions))))%nat.
Proof.
  intros (i & Hi%lookup_lt_Some & -> & _)%build_model_x.
  rewrite build_model_num_vars. lia.
Qed.

Lemma y_lookup_total umap_order students rooms restrictions room_positions ki :
  (ki < length rooms)%nat →
  b_y (build_model umap_order students rooms restrictions room_positions) !!! ki = ki.
Proof.
  intros Hki. rewrite build_model_y. apply list_lookup_total_correct.
  by rewrite lookup_seq_lt.
Qed.

(** X13. Every variable mentioned by a constraint or by the objective of
    the built model was created by [NewBoolVar] of that model. *)
Theorem model_variables_declared umap_order students rooms restrictions :
  let m := model_of umap_order students rooms restrictions in
  Forall (λ c, Forall (λ v, (v < num_vars m)%nat) (constraint_vars c)) (constraints m) ∧
  Forall (λ v, (v < num_vars m)%nat) (terms (objective m)).
Proof.
  intros m. subst m. unfold model_of, built.
  set (rp := (precompute_positions rooms).1).
  set (b := build_model umap_order students rooms restrictions rp).
  assert (∀ key v, b_x b !! key = Some v →
            (v < num_vars (CpModelBuilder.Build (b_model b)))%nat) as Hx
    by (intros key v Hv; by apply x_range in Hv as [_ ?]).
  assert (∀ ki, (ki < length rooms)%nat →
            (b_y b !!! ki < num_vars (CpModelBuilder.Build (b_model b)))%nat) as Hy.
  { intros ki Hki. unfold b. rewrite y_lookup_total, build_model_num_vars by done. lia. }
  split.
  - unfold b. rewrite build_model_constraints. fold b.
    rewrite !Forall_app. split_and!.
    + apply Forall_forall. intros c (student & Hc & _)%list_elem_of_bind.
      cbv zeta in Hc. case_bool_decide; [by apply elem_of_nil in Hc|].
      apply list_elem_of_singleton in Hc as ->. simpl. rewrite app_nil_r.
      apply Forall_forall.
      intros v (ki & (pos & Hv & _)%list_elem_of_bind & _)%list_elem_of_bind.
      destruct (b_x b !! _) eqn:Hlook; simpl in Hv; [|by apply elem_of_nil in Hv].
      apply list_elem_of_singleton in Hv as ->. by eapply Hx.
    + apply Forall_forall.
      intros c (ki & (pos & Hc & _)%list_elem_of_bind & Hki%elem_of_seq)%list_elem_of_bind.
      assert (Forall (λ v, (v < num_vars (CpModelBuilder.Build (b_model b)))%nat)
                (seat_vars (b_x b) students ki pos)) as Hvars.
      { apply Forall_forall. intros v (student & Hv & _)%list_elem_of_bind.
        destruct (b_x b !! _) eqn:Hlook; simpl in Hv; [|by apply elem_of_nil in Hv].
        apply list_elem_of_singleton in Hv as ->. by eapply Hx. }
      cbv zeta in Hc. apply elem_of_app in Hc as [(v & -> & Hv)%list_elem_of_fmap|Hc].
      * simpl. repeat constructor; [|apply Hy; lia].
        by eapply Forall_forall in Hvars.
      * case_bool_decide; [by apply elem_of_nil in Hc|].
        apply list_elem_of_singleton in Hc as ->. simpl. by rewrite app_nil_r.
    + apply Forall_take, Forall_forall.
      intros c (g & Hc & _)%list_elem_of_bind.
      destruct (_ <? _)%nat; [by apply elem_of_nil in Hc|].
      apply list_elem_of_bind in Hc as (ki & Hc & _).
      apply list_elem_of_bind in Hc as (pp & Hc & _).
      destruct (is_adjacent _ _); [|by apply elem_of_nil in Hc].
      apply list_elem_of_bind in Hc as (ss & Hc & _).
      destruct (b_x b !! var_key ss.1 _ _) as [v1|] eqn:H1;
        [|by apply elem_of_nil in Hc].
      destruct (b_x b !! var_key ss.2 _ _) as [v2|] eqn:H2;
        [|by apply elem_of_nil in Hc].
      apply list_elem_of_singleton in Hc as ->. simpl.
      repeat constructor; by eapply Hx.
  - unfold b. rewrite build_model_objective, build_model_num_vars. simpl.
    apply Forall_forall. intros v ?%elem_of_seq. lia.
Qed.

(** X14. Two keys of the variable map never share a variable, and a
    decision variable is never a room usage variable. *)
Theorem decision_variables_distinct umap_order students rooms restrictions k1 k2 v :
  let b := built umap_order students rooms restrictions in
  b_x b !! k1 = Some v → b_x b !! k2 = Some v →
  k1 = k2 ∧ (v ∉ b_y b) ∧
  (v < num_vars (model_of umap_order students rooms restrictions))%nat.
Proof.
  intros b H1 H2. subst b. unfold model_of, built in *.
  pose proof (x_range _ _ _ _ _ _ _ H1) as Hrange.
  apply build_model_x in H1 as (i & Hi & -> & _).
  apply build_model_x in H2 as (j & Hj & Heq & _).
  assert (i = j) as -> by lia.
  split_and!; [congruence| |lia].
  rewrite build_model_y. intros ?%elem_of_seq. lia.
Qed.

Lemma decision_variables_distinct_scenario_A :
  b_x (built first_inserted_first students_A rooms_A ∅) !! var_key 1 0 (0, 1) = Some 5%nat ∧
  5%nat ∉ b_y (built first_inserted_first students_A rooms_A ∅).
Proof.
  assert (b_x (built first_inserted_first students_A rooms_A ∅) !! var_key 1 0 (0, 1)
            = Some 5%nat) as H by (vm_compute; reflexivity).
  split; [exact H|].
  exact (proj1 (proj2 (decision_variables_distinct first_inserted_first students_A rooms_A ∅
                         _ _ _ H H))).
Defined.

Lemma seat_constraints_no_students x y rooms room_positions :
  seat_constraints x y [] rooms room_positions = [].
Proof.
  unfold seat_constraints. apply bind_all_nil. intros ki _.
  apply bind_all_nil. by intros pos _.
Qed.

Lemma separation_candidates_small x groups rooms room_positions :
  Forall (λ g : string * list Z, (length g.2 < 2)%nat) groups →
  separation_candidates x groups rooms room_positions = [].
Proof.
  intros Hall. unfold separation_candidates. apply bind_all_nil. intros g Hg.
  eapply Forall_forall in Hall; [|done].
  by apply Nat.ltb_lt in Hall as ->.
Qed.

(** X15. With no students (and a capacity that fits an [int]) [solve]
    returns no assignment and calls the solver on the model with one variable
    per room, no constraint, and the sum of the room variables to minimize. *)
Theorem no_students_empty_model solver umap_order solve_time rooms restrictions timeout :
  let outcome := solve solver umap_order solve_time [] rooms restrictions timeout in
  Z.of_nat (usable_capacity rooms) ≤ INT_MAX →
  assignments outcome = [] ∧
  solver_call outcome =
    Some (solver_parameters timeout,
          {| num_vars := length rooms; constraints := [];
             objective := Sum (seq 0 (length rooms)) |}).
Proof.
  intros outcome Hcap. subst outcome.
  assert (rejected [] rooms = false) as Hacc.
  { unfold rejected. rewrite total_capacity_usable by done.
    apply Z.ltb_ge. change (to_int (Z.of_nat (length (@nil Student.t)))) with 0. lia. }
  rewrite solve_accepted by done. simpl. split.
  - rewrite extract_assignments_eq. by destruct (status _).
  - do 2 f_equal. unfold model_of, built.
    set (rp := (precompute_positions rooms).1).
    pose proof (build_model_num_vars umap_order [] rooms restrictions rp) as Hn.
    pose proof (build_model_constraints umap_order [] rooms restrictions rp) as Hc.
    pose proof (build_model_objective umap_order [] rooms restrictions rp) as Ho.
    rewrite seat_constraints_no_students, separation_candidates_small in Hc.
    + destruct (CpModelBuilder.Build _) as [n cs o]. simpl in *. subst.
      by rewrite Nat.add_0_r.
    + rewrite exam_groups_eq. apply Forall_fmap, Forall_forall. intros e _. simpl. lia.
Qed.

Lemma no_students_empty_model_input_A :
  Z.of_nat (usable_capacity rooms_A) ≤ INT_MAX ∧
  solver_call (solve unknown_solver first_inserted_first 15 [] rooms_A ∅ 120) =
    Some (solver_parameters 120,
          {| num_vars := 1; constraints := []; objective := Sum [0%nat] |}).
Proof.
  assert (Z.of_nat (usable_capacity rooms_A) ≤ INT_MAX) as H by (vm_compute; discriminate).
  split; [exact H|].
  exact (proj2 (no_students_empty_model unknown_solver first_inserted_first 15
                  rooms_A ∅ 120 H)).
Defined.

Lemma length_bind_sum {A B} (f : A → list B) (l : list A) :
  length (l ≫= f) = sum_list ((λ a, length (f a)) <$> l).
Proof.
  induction l as [|a l IH]; [done|]. csimpl. rewrite length_app. by rewrite IH.
Qed.

Lemma sum_list_fmap_le {A} (f g : A → nat) (l : list A) :
  (∀ a, a ∈ l → (f a ≤ g a)%nat) → (sum_list (f <$> l) ≤ sum_list (g <$> l))%nat.
Proof.
  induction l as [|a l IH]; intros Hle; csimpl; [lia|].
  pose proof (Hle a ltac:(left)). 
  assert (sum_list (f <$> l) ≤ sum_list (g <$> l))%nat
    by (apply IH; intros b Hb; apply Hle; by right).
  lia.
Qed.

Lemma sum_list_fmap_const {A} (n : nat) (l : list A) :
  sum_list ((λ _, n) <$> l) = (length l * n)%nat.
Proof. induction l as [|a l IH]; csimpl; [done|]. rewrite IH. lia. Qed.

Lemma keys_per_student rooms restrictions exam sid :
  let keys :=
    room_indices rooms ≫= λ ki,
      if room_allowed restrictions exam (Room.id (rooms !!! ki))
      then var_key sid ki <$> (precompute_positions rooms).1 !!! ki
      else [] in
  (length keys ≤ usable_capacity rooms)%nat ∧
  (restrictions !! exam = None → length keys = usable_capacity rooms).
Proof.
  intros keys. subst keys. rewrite length_bind_sum.
  assert (usable_capacity rooms =
            sum_list ((λ ki, length (positions_of (rooms !!! ki))) <$> room_indices rooms))
    as ->.
  { unfold usable_capacity, room_indices.
    rewrite <-(lookup_total_seq_fmap rooms) at 1. by rewrite <-!list_fmap_compose. }
  assert (∀ ki, ki ∈ room_indices rooms →
            length (var_key sid ki <$> (precompute_positions rooms).1 !!! ki) =
              length (positions_of (rooms !!! ki))) as Hlen.
  { intros ki Hki%elem_of_seq. rewrite length_fmap, precomputed_lookup.
    destruct (rooms !! ki) as [room|] eqn:Hroom.
    - by rewrite (list_lookup_total_correct _ _ _ Hroom).
    - apply lookup_ge_None in Hroom. lia. }
  split.
  - apply sum_list_fmap_le. intros ki Hki.
    destruct (room_allowed _ _ _); simpl; [|lia]. by rewrite Hlen.
  - intros Hnone. f_equal. apply list_fmap_ext. intros i ki Hki.
    unfold room_allowed. rewrite Hnone. apply Hlen. by eapply list_elem_of_lookup_2.
Qed.

(** X16. The built model has at most one variable per room plus one per
    student and usable seat, and exactly that many without restrictions. *)
Theorem decision_variable_count umap_order students rooms restrictions :
  (num_vars (model_of umap_order students rooms restrictions)
     ≤ length rooms + length students * usable_capacity rooms)%nat ∧
  num_vars (model_of umap_order students rooms ∅)
    = (length rooms + length students * usable_capacity rooms)%nat.
Proof.
  unfold model_of, built. rewrite !build_model_num_vars.
  unfold created_keys. rewrite !length_bind_sum. split.
  - apply Nat.add_le_mono_l. rewrite <-sum_list_fmap_const.
    apply sum_list_fmap_le. intros student _. apply keys_per_student.
  - f_equal. rewrite <-sum_list_fmap_const. f_equal.
    apply list_fmap_ext. intros _ student _. by apply keys_per_student.
Qed.

Lemma student_has_vars umap_order students rooms restrictions student room :
  student ∈ students → room ∈ rooms →
  room_allowed restrictions (Student.exam student) (Room.id room) = true →
  positions_of room ≠ [] →
  student_vars (b_x (built umap_order students rooms restrictions)) rooms
    (precompute_positions rooms).1 (Student.id student) ≠ [].
Proof.
  intros Hstudent (ki & Hroom)%list_elem_of_lookup_1 Hallowed Hpos.
  destruct (positions_of room) as [|pos rest] eqn:Hpositions; [done|].
  assert (ki < length rooms)%nat as Hki by by eapply lookup_lt_Some.
  assert (pos ∈ (precompute_positions rooms).1 !!! ki) as Hin
    by (rewrite precomputed_lookup, Hroom, Hpositions; left).
  destruct (proj2 (decision_var_exists umap_order students rooms restrictions
                     (precompute_positions rooms).1 (Student.id student) ki pos))
    as [v Hv].
  { exists student. split_and!; try done.
    by rewrite (list_lookup_total_correct _ _ _ Hroom). }
  intros Hnil.
  assert (v ∈ student_vars (b_x (built umap_order students rooms restrictions)) rooms
                (precompute_positions rooms).1 (Student.id student)) as Hv'.
  { apply list_elem_of_bind. exists ki. split; [|apply elem_of_seq; lia].
    apply list_elem_of_bind. exists pos. split; [|done].
    unfold built. rewrite Hv. left. }
  rewrite Hnil in Hv'. by apply elem_of_nil in Hv'.
Qed.

(** X17. When every student has an allowed room with a usable seat, the
    input passes the capacity test and the response, of status OPTIMAL or
    FEASIBLE, satisfies the built model, the returned list holds exactly one
    assignment per student, in input order. *)
Theorem every_student_seated_in_order
    solver umap_order solve_time students rooms restrictions timeout :
  let response := solver (solver_parameters timeout)
                    (model_of umap_order students rooms restrictions) in
  Forall (λ student, ∃ room, room ∈ rooms ∧
            room_allowed restrictions (Student.exam student) (Room.id room) = true ∧
            positions_of room ≠ []) students →
  rejected students rooms = false →
  status response = OPTIMAL ∨ status response = FEASIBLE →
  satisfies (solution response) (model_of umap_order students rooms restrictions) = true →
  Assignment.student_id <$>
    assignments (solve solver umap_order solve_time students rooms restrictions timeout)
  = Student.id <$> students.
Proof.
  intros response Hseats Hacc Hstatus Hsat.
  rewrite solve_accepted by done. simpl. fold response.
  assert (match status response with
          | OPTIMAL | FEASIBLE =>
              extract_assignments (b_x (built umap_order students rooms restrictions))
                response students rooms (precompute_positions rooms).1
          | _ => []
          end =
          extract_assignments (b_x (built umap_order students rooms restrictions))
            response students rooms (precompute_positions rooms).1) as ->
    by (by destruct Hstatus as [-> | ->]).
  rewrite extract_assignments_eq.
  set (per := λ student, room_indices rooms ≫= λ ki,
         option_list (extracted_for (b_x (built umap_order students rooms restrictions))
                        response rooms (precompute_positions rooms).1 student ki)).
  change (Assignment.student_id <$> (students ≫= per) = Student.id <$> students).
  assert (∀ student, student ∈ students →
            Assignment.student_id <$> per student = [Student.id student]) as Hper.
  { intros student Hstudent.
    pose proof (slots_carry_student_id (b_x (built umap_order students rooms restrictions))
                  response rooms (precompute_positions rooms).1 student) as Hid.
    assert (length (per student) = 1%nat) as Hone.
    { apply one_slot_per_student; [done..|].
      rewrite Forall_forall in Hseats.
      destruct (Hseats student Hstudent) as (room & ? & ? & ?).
      by eapply student_has_vars. }
    fold (per student) in Hid.
    destruct (per student) as [|a [|b rest]]; simpl in Hone; try lia.
    apply Forall_cons in Hid as [Ha _]. csimpl. by rewrite Ha. }
  enough (∀ l, (∀ student, student ∈ l → student ∈ students) →
            Assignment.student_id <$> (l ≫= per) = Student.id <$> l) as Hall
    by (by apply Hall).
  induction l as [|student l IH]; intros Hl; [done|].
  csimpl. rewrite fmap_app, Hper by (apply Hl; left). rewrite IH; [done|].
  intros s Hs. apply Hl. by right.
Qed.

Lemma every_student_seated_in_order_scenario_A :
  Assignment.student_id <$>
    assignments (solve (λ _ _, response_A) first_inserted_first 15 students_A rooms_A ∅ 120)
  = [0; 1].
Proof.
  apply (every_student_seated_in_order (λ _ _, response_A) first_inserted_first 15
           students_A rooms_A ∅ 120).
  - repeat constructor;
      (exists (Room.mk "R1" 1 3 false false); split_and!;
         [left|reflexivity|discriminate]).
  - vm_compute. reflexivity.
  - left. reflexivity.
  - vm_compute. reflexivity.
Defined.
